(** * The to-do application's client store, view projection and backend
      service, embedded from

      - [frontend/src/types/todo.ts]      (module [Todo] and the requests)
      - [frontend/src/store/todoSlice.ts] (module [Slice])
      - [frontend/src/services/todoApi.ts] (module [TodoApi])
      - [frontend/src/utils/todoUtils.ts] (module [Utils])
      - [frontend/src/components/TodoItem.tsx], [TodoList.tsx] (module [View])
      - [backend/src/todos/todo.service.ts] (module [TodoService])

    A [Date] is its time value, a number of milliseconds, or the Invalid
    Date.  Reading the clock ([new Date()]) and drawing a temporary
    identifier ([generateTempId()]) are inputs of the functions that do so.
    Parsing a date string ([new Date(s)]), which gives the Invalid Date for
    a string that is no date, is the interface [DateParser]. *)

From stdpp Require Import gmap strings list sorting pretty.
From Stdlib Require Import ZArith.

Local Open Scope string_scope.
Local Open Scope list_scope.
Local Open Scope Z_scope.

(** ** JavaScript values used by the sources *)

Module Js.

(** An optional property [f?: T] of an object literal: the key may be
  missing, or present holding [undefined], or present holding a value.
  Reading it ([o.f]) gives [undefined] in the first two cases. *)
Inductive Field (A : Type) : Type :=
| Missing
| Undefined
| Value (a : A).
Arguments Missing {A}.
Arguments Undefined {A}.
Arguments Value {A} a.

Definition read {A} (f : Field A) : option A :=
  match f with
  | Value a => Some a
  | Missing | Undefined => None
  end.

(** [key in o] *)
Definition present {A} (f : Field A) : bool :=
  match f with
  | Missing => false
  | Undefined | Value _ => true
  end.

(** Truthiness of a string: every string but the empty one. *)
Definition truthy (s : string) : bool :=
  match s with
  | EmptyString => false
  | String _ _ => true
  end.

(** The numbers the sources compute with: an integer, or [NaN]. *)
Inductive number : Type :=
| Num (z : Z)
| NaN.

(** [x - y]: [NaN] as soon as one side is.  (Between time values the
    difference may be rounded, but never across zero: its sign is exact.) *)
Definition minus (x y : number) : number :=
  match x, y with
  | Num a, Num b => Num (a - b)
  | _, _ => NaN
  end.

(** 2^53, the integer where [n + 1] stops being exact. *)
Definition two53 : Z := 9007199254740992.

(** [n++] on a number that holds an integer from 0 to 2^53, which a counter
    that starts there never leaves: below 2^53 the sum is exact, at 2^53 it
    rounds back to 2^53. *)
Definition incremented (n : Z) : Z :=
  if bool_decide (n < two53) then n + 1 else n.

(** [obj[key] = value] on a plain object used as a map: the value becomes
    the own property [key], except that for the key [__proto__], unless the
    object has it as an own property, the assignment goes to the setter it
    inherits, which ignores a string and stores nothing. *)
Definition assign {V} (key : string) (value : V) (obj : gmap string V)
  : gmap string V :=
  if bool_decide (key = "__proto__" ∧ obj !! key = None) then obj
  else <[key := value]> obj.

(** What a [catch] clause receives: an [Error] instance with its
  [message], or some other thrown value. *)
Inductive Thrown : Type :=
| ErrorInstance (message : string)
| OtherValue.

(** The result of an awaited promise. *)
Inductive Settled (A : Type) : Type :=
| Resolved (a : A)
| Threw (e : Thrown).
Arguments Resolved {A} a.
Arguments Threw {A} e.

Section Arrays.
Context {A : Type}.

(** [Array.prototype.sort(compareFn)] is a stable sort: with a
    consistent comparator the outcome is the sorted arrangement in which
    elements that compare equal keep their relative order.  [sort_by]
    computes it by insertion: [x], which came before everything in [l],
    stays before the first element it does not exceed.  With a comparator
    that is not consistent the standard leaves the order to the
    implementation; [sort_by] then gives what insertion gives. *)
Fixpoint insert_by (compareFn : A → A → Z) (x : A) (l : list A) : list A :=
  match l with
  | [] => [x]
  | y :: l' =>
      if bool_decide (compareFn x y ≤ 0) then x :: y :: l'
      else y :: insert_by compareFn x l'
  end.

Definition sort_by (compareFn : A → A → Z) (l : list A) : list A :=
  foldr (insert_by compareFn) [] l.

(** Arrays are objects: a reference into a store of element lists,
    [gmap ref (list A)]. *)
Definition ref := positive.

Definition elements_of (h : gmap ref (list A)) (r : ref) : list A := h !!! r.

Definition alloc (l : list A) (h : gmap ref (list A))
  : ref * gmap ref (list A) :=
  let r := fresh (dom h) in (r, <[r := l]> h).

(** [arr.filter(p)]: a new array. *)
Definition Array_filter (p : A → bool) (r : ref) (h : gmap ref (list A))
  : ref * gmap ref (list A) :=
  alloc (List.filter p (elements_of h r)) h.

(** [[...arr]]: a new array with the same elements. *)
Definition Array_spread (r : ref) (h : gmap ref (list A))
  : ref * gmap ref (list A) :=
  alloc (elements_of h r) h.

(** What [sort] reads of the comparator's result: a [NaN] counts as [+0]. *)
Definition sortCompare (compareFn : A → A → number) (x y : A) : Z :=
  match compareFn x y with
  | Num z => z
  | NaN => 0
  end.

(** [arr.sort(compareFn)]: sorts [arr] in place and returns [arr]. *)
Definition Array_sort (compareFn : A → A → number) (r : ref)
    (h : gmap ref (list A)) : ref * gmap ref (list A) :=
  (r, <[r := sort_by (sortCompare compareFn) (elements_of h r)]> h).

(** [arr.findIndex(p)], with [None] for [-1]. *)
Definition findIndex (P : A → Prop) `{∀ x, Decision (P x)} (l : list A)
  : option nat :=
  fst <$> list_find P l.

End Arrays.

End Js.

(** ** [types/todo.ts] *)

(** A [Date] object: a valid one with its time value in milliseconds, or
    the Invalid Date ([new Date(s)] for a string [s] that is no date).  An
    integer stands for the valid date with that time value. *)
Inductive Date : Type :=
| Time (ms : Z)
| InvalidDate.

Coercion Time : Z >-> Date.

#[global] Instance Date_eq_dec : EqDecision Date.
Proof. solve_decision. Defined.

(** [date.getTime()], also what [new Date(date).getTime()] gives. *)
Definition getTime (date : Date) : Js.number :=
  match date with
  | Time ms => Js.Num ms
  | InvalidDate => Js.NaN
  end.

Class DateParser := parseDate : string → Date.

Inductive Priority : Type := low | medium | high.

#[global] Instance Priority_eq_dec : EqDecision Priority.
Proof. solve_decision. Defined.

Module Todo.
Record t : Type := mk {
  id : string;
  title : string;
  description : option string;
  completed : bool;
  priority : Priority;
  dueDate : option Date;
  createdAt : Date;
  updatedAt : Date;
}.
End Todo.

#[global] Instance Todo_eq_dec : EqDecision Todo.t.
Proof. solve_decision. Defined.

Module CreateTodoRequest.
Record t : Type := mk {
  title : string;
  description : option string;
  priority : Priority;
  dueDate : option string;
}.
End CreateTodoRequest.

Module UpdateTodoRequest.
Record t : Type := mk {
  title : Js.Field string;
  description : Js.Field string;
  completed : Js.Field bool;
  priority : Js.Field Priority;
  dueDate : Js.Field string;
}.
End UpdateTodoRequest.

(** ** [store/todoSlice.ts] *)

Module Slice.

Inductive FilterType : Type := FilterAll | FilterActive | FilterCompleted.
Inductive SortType : Type := SortCreated | SortPriority | SortDueDate.

(** The values of [optimisticOperations]. *)
Inductive Operation : Type := creating | updating | deleting.

#[global] Instance Operation_eq_dec : EqDecision Operation.
Proof. solve_decision. Defined.

Record TodoState : Type := mkState {
  todos : list Todo.t;
  loading : bool;
  error : option string;
  filter : FilterType;
  sort : SortType;
  optimisticOperations : gmap string Operation;
}.

Definition initialState : TodoState :=
  {| todos := []; loading := false; error := None;
     filter := FilterAll; sort := SortCreated; optimisticOperations := ∅ |}.

(** Assignments to the fields of the state. *)
Definition set_todos (v : list Todo.t) (state : TodoState) : TodoState :=
  mkState v (loading state) (error state) (filter state) (sort state)
    (optimisticOperations state).
Definition set_loading (v : bool) (state : TodoState) : TodoState :=
  mkState (todos state) v (error state) (filter state) (sort state)
    (optimisticOperations state).
Definition set_error (v : option string) (state : TodoState) : TodoState :=
  mkState (todos state) (loading state) v (filter state) (sort state)
    (optimisticOperations state).
Definition set_filter (v : FilterType) (state : TodoState) : TodoState :=
  mkState (todos state) (loading state) (error state) v (sort state)
    (optimisticOperations state).
Definition set_sort (v : SortType) (state : TodoState) : TodoState :=
  mkState (todos state) (loading state) (error state) (filter state) v
    (optimisticOperations state).
Definition set_optimisticOperations (v : gmap string Operation)
    (state : TodoState) : TodoState :=
  mkState (todos state) (loading state) (error state) (filter state)
    (sort state) v.

(** [state.todos.findIndex(todo => todo.id === id)] *)
Definition indexOfId (id : string) (l : list Todo.t) : option nat :=
  Js.findIndex (λ todo, Todo.id todo = id) l.

(** The shared body of the three confirmed-entity handlers:
    [const index = ...findIndex(...); if (index !== -1) state.todos[index] = e]. *)
Definition replaceById (id : string) (e : Todo.t) (l : list Todo.t)
  : list Todo.t :=
  match indexOfId id l with
  | Some index => <[index := e]> l
  | None => l
  end.

(** *** Reducers *)

Definition setError (payload : option string) (state : TodoState) :=
  set_error payload state.

Definition addTodoOptimistic (payload : Todo.t) (state : TodoState) :=
  let state := set_todos (todos state ++ [payload]) state in
  set_optimisticOperations
    (Js.assign (Todo.id payload) creating (optimisticOperations state)) state.

Definition updateTodoOptimistic (payload : Todo.t) (state : TodoState) :=
  match indexOfId (Todo.id payload) (todos state) with
  | Some index =>
      let state := set_todos (<[index := payload]> (todos state)) state in
      set_optimisticOperations
        (Js.assign (Todo.id payload) updating (optimisticOperations state))
        state
  | None => state
  end.

Definition markTodoAsDeleting (payload : string) (state : TodoState) :=
  set_optimisticOperations
    (Js.assign payload deleting (optimisticOperations state)) state.

Definition unmarkTodoAsDeleting (payload : string) (state : TodoState) :=
  set_optimisticOperations (delete payload (optimisticOperations state)) state.

Definition removeOptimisticTodo (payload : string) (state : TodoState) :=
  let state :=
    set_todos
      (List.filter (λ todo, bool_decide (Todo.id todo ≠ payload)) (todos state))
      state in
  set_optimisticOperations (delete payload (optimisticOperations state)) state.

Definition setFilter (payload : FilterType) (state : TodoState) :=
  set_filter payload state.

Definition setSort (payload : SortType) (state : TodoState) :=
  set_sort payload state.

(** *** Extra reducers (the life cycle of the thunks) *)

Definition fetchTodos_pending (state : TodoState) :=
  set_error None (set_loading true state).

Definition fetchTodos_fulfilled (payload : list Todo.t) (state : TodoState) :=
  set_todos payload (set_loading false state).

(** [action.error.message || 'Failed to fetch todos'] *)
Definition fetchTodos_rejected (message : option string) (state : TodoState) :=
  let text :=
    match message with
    | Some m => if Js.truthy m then m else "Failed to fetch todos"
    | None => "Failed to fetch todos"
    end in
  set_error (Some text) (set_loading false state).

Definition createTodo_fulfilled (tempId : string) (newTodo : Todo.t)
    (state : TodoState) :=
  let state := set_todos (replaceById tempId newTodo (todos state)) state in
  set_optimisticOperations (delete tempId (optimisticOperations state)) state.

Definition createTodo_rejected (payload : string) (state : TodoState) :=
  set_error (Some payload) state.

Definition updateTodo_fulfilled (serverTodo : Todo.t) (state : TodoState) :=
  let state :=
    set_todos (replaceById (Todo.id serverTodo) serverTodo (todos state)) state in
  set_optimisticOperations
    (delete (Todo.id serverTodo) (optimisticOperations state)) state.

Definition updateTodo_rejected (payload : string) (state : TodoState) :=
  set_error (Some payload) state.

Definition deleteTodo_fulfilled (todoId : string) (state : TodoState) :=
  let state :=
    set_todos
      (List.filter (λ todo, bool_decide (Todo.id todo ≠ todoId)) (todos state))
      state in
  set_optimisticOperations (delete todoId (optimisticOperations state)) state.

Definition deleteTodo_rejected (payload : string) (state : TodoState) :=
  set_error (Some payload) state.

Definition toggleTodoComplete_fulfilled (serverTodo : Todo.t)
    (state : TodoState) :=
  let state :=
    set_todos (replaceById (Todo.id serverTodo) serverTodo (todos state)) state in
  set_optimisticOperations
    (delete (Todo.id serverTodo) (optimisticOperations state)) state.

Definition toggleTodoComplete_rejected (payload : string) (state : TodoState) :=
  set_error (Some payload) state.

(** *** Actions

    The slice's own actions, and for each thunk the three actions
    [createAsyncThunk] dispatches around its body; these carry the thunk's
    argument ([meta.arg]) and, when settled, the [payload].  The random
    [meta.requestId] of a call is left out. *)

Record UpdateTodoArg : Type := mkUpdateTodoArg {
  id : string;
  todoData : UpdateTodoRequest.t;
  originalTodo : Todo.t;
}.

Inductive Action : Type :=
| SetError (payload : option string)
| AddTodoOptimistic (payload : Todo.t)
| UpdateTodoOptimistic (payload : Todo.t)
| MarkTodoAsDeleting (payload : string)
| UnmarkTodoAsDeleting (payload : string)
| RemoveOptimisticTodo (payload : string)
| SetFilter (payload : FilterType)
| SetSort (payload : SortType)
| FetchTodosPending
| FetchTodosFulfilled (payload : list Todo.t)
| FetchTodosRejected (message : option string)
| CreateTodoPending (arg : CreateTodoRequest.t)
| CreateTodoFulfilled (arg : CreateTodoRequest.t) (tempId : string)
    (newTodo : Todo.t)
| CreateTodoRejected (arg : CreateTodoRequest.t) (payload : string)
| UpdateTodoPending (arg : UpdateTodoArg)
| UpdateTodoFulfilled (arg : UpdateTodoArg) (payload : Todo.t)
| UpdateTodoRejected (arg : UpdateTodoArg) (payload : string)
| DeleteTodoPending (arg : string)
| DeleteTodoFulfilled (arg : string) (payload : string)
| DeleteTodoRejected (arg : string) (payload : string)
| ToggleTodoCompletePending (arg : Todo.t)
| ToggleTodoCompleteFulfilled (arg : Todo.t) (payload : Todo.t)
| ToggleTodoCompleteRejected (arg : Todo.t) (payload : string).

(** The slice reducer: the case reducer of the action, the state itself for
    an action no case handles. *)
Definition reducer (state : TodoState) (action : Action) : TodoState :=
  match action with
  | SetError p => setError p state
  | AddTodoOptimistic p => addTodoOptimistic p state
  | UpdateTodoOptimistic p => updateTodoOptimistic p state
  | MarkTodoAsDeleting p => markTodoAsDeleting p state
  | UnmarkTodoAsDeleting p => unmarkTodoAsDeleting p state
  | RemoveOptimisticTodo p => removeOptimisticTodo p state
  | SetFilter p => setFilter p state
  | SetSort p => setSort p state
  | FetchTodosPending => fetchTodos_pending state
  | FetchTodosFulfilled p => fetchTodos_fulfilled p state
  | FetchTodosRejected m => fetchTodos_rejected m state
  | CreateTodoFulfilled _ tempId newTodo =>
      createTodo_fulfilled tempId newTodo state
  | CreateTodoRejected _ p => createTodo_rejected p state
  | UpdateTodoFulfilled _ p => updateTodo_fulfilled p state
  | UpdateTodoRejected _ p => updateTodo_rejected p state
  | DeleteTodoFulfilled _ p => deleteTodo_fulfilled p state
  | DeleteTodoRejected _ p => deleteTodo_rejected p state
  | ToggleTodoCompleteFulfilled _ p => toggleTodoComplete_fulfilled p state
  | ToggleTodoCompleteRejected _ p => toggleTodoComplete_rejected p state
  | CreateTodoPending _ | UpdateTodoPending _ | DeleteTodoPending _
  | ToggleTodoCompletePending _ => state
  end.

(** Dispatching a run of actions, one after the other. *)
Definition dispatch (actions : list Action) (state : TodoState) : TodoState :=
  foldl reducer state actions.

(** [generateTempId()], from what [Date.now()] reads and the nine
    characters [Math.random().toString(36).substr(2, 9)] gives. *)
Definition generateTempId (dateNow : Z) (random : string) : string :=
  ("temp-" ++ pretty dateNow ++ "-" ++ random)%string.

(** *** Thunks

    A thunk runs up to its [await], which suspends it until the remote call
    settles; other code runs in between.  So each thunk is two runs of
    actions: [_submit], dispatched when the thunk is called, and [_settle],
    dispatched when the remote call has settled, from the variables the
    thunk captured at submit time.  The last action of [_settle] is the
    fulfilled or rejected action the caller's [await dispatch(...)] gets. *)

(** [error instanceof Error ? error.message : fallback] *)
Definition messageOf (e : Js.Thrown) (fallback : string) : string :=
  match e with
  | Js.ErrorInstance message => message
  | Js.OtherValue => fallback
  end.

Section Thunks.
Context `{DateParser}.

Definition createTodo_optimisticTodo (todoData : CreateTodoRequest.t)
    (tempId : string) (now : Date) : Todo.t :=
  {| Todo.id := tempId;
     Todo.title := CreateTodoRequest.title todoData;
     Todo.description := CreateTodoRequest.description todoData;
     Todo.completed := false;
     Todo.priority := CreateTodoRequest.priority todoData;
     Todo.dueDate :=
       match CreateTodoRequest.dueDate todoData with
       | Some d => if Js.truthy d then Some (parseDate d) else None
       | None => None
       end;
     Todo.createdAt := now;
     Todo.updatedAt := now |}.

Definition createTodo_submit (todoData : CreateTodoRequest.t)
    (tempId : string) (now : Date) : list Action :=
  [CreateTodoPending todoData;
   AddTodoOptimistic (createTodo_optimisticTodo todoData tempId now)].

Definition createTodo_settle (todoData : CreateTodoRequest.t)
    (tempId : string) (response : Js.Settled Todo.t) : list Action :=
  match response with
  | Js.Resolved newTodo => [CreateTodoFulfilled todoData tempId newTodo]
  | Js.Threw e =>
      [RemoveOptimisticTodo tempId;
       CreateTodoRejected todoData (messageOf e "Failed to create todo")]
  end.

Definition updateTodo_updatedTodo (arg : UpdateTodoArg) (now : Date) : Todo.t :=
  let todoData := todoData arg in
  let originalTodo := originalTodo arg in
  {| Todo.id := Todo.id originalTodo;
     Todo.title :=
       match Js.read (UpdateTodoRequest.title todoData) with
       | Some v => v
       | None => Todo.title originalTodo
       end;
     Todo.description :=
       match Js.read (UpdateTodoRequest.description todoData) with
       | Some v => Some v
       | None => Todo.description originalTodo
       end;
     Todo.completed :=
       match Js.read (UpdateTodoRequest.completed todoData) with
       | Some v => v
       | None => Todo.completed originalTodo
       end;
     Todo.priority :=
       match Js.read (UpdateTodoRequest.priority todoData) with
       | Some v => v
       | None => Todo.priority originalTodo
       end;
     Todo.dueDate :=
       match Js.read (UpdateTodoRequest.dueDate todoData) with
       | Some v => if Js.truthy v then Some (parseDate v) else None
       | None => Todo.dueDate originalTodo
       end;
     Todo.createdAt := Todo.createdAt originalTodo;
     Todo.updatedAt := now |}.

Definition updateTodo_submit (arg : UpdateTodoArg) (now : Date) : list Action :=
  [UpdateTodoPending arg; UpdateTodoOptimistic (updateTodo_updatedTodo arg now)].

Definition updateTodo_settle (arg : UpdateTodoArg)
    (response : Js.Settled Todo.t) : list Action :=
  match response with
  | Js.Resolved serverTodo => [UpdateTodoFulfilled arg serverTodo]
  | Js.Threw e =>
      [UpdateTodoOptimistic (originalTodo arg);
       UpdateTodoRejected arg (messageOf e "Failed to update todo")]
  end.

End Thunks.

Definition deleteTodo_submit (id : string) : list Action :=
  [DeleteTodoPending id; MarkTodoAsDeleting id].

Definition deleteTodo_settle (id : string) (response : Js.Settled unit)
  : list Action :=
  match response with
  | Js.Resolved _ => [DeleteTodoFulfilled id id]
  | Js.Threw e =>
      [UnmarkTodoAsDeleting id;
       DeleteTodoRejected id (messageOf e "Failed to delete todo")]
  end.

Definition toggleTodoComplete_updatedTodo (todo : Todo.t) (now : Date)
  : Todo.t :=
  {| Todo.id := Todo.id todo;
     Todo.title := Todo.title todo;
     Todo.description := Todo.description todo;
     Todo.completed := negb (Todo.completed todo);
     Todo.priority := Todo.priority todo;
     Todo.dueDate := Todo.dueDate todo;
     Todo.createdAt := Todo.createdAt todo;
     Todo.updatedAt := now |}.

Definition toggleTodoComplete_submit (todo : Todo.t) (now : Date)
  : list Action :=
  [ToggleTodoCompletePending todo;
   UpdateTodoOptimistic (toggleTodoComplete_updatedTodo todo now)].

Definition toggleTodoComplete_settle (todo : Todo.t)
    (response : Js.Settled Todo.t) : list Action :=
  match response with
  | Js.Resolved serverTodo => [ToggleTodoCompleteFulfilled todo serverTodo]
  | Js.Threw e =>
      [UpdateTodoOptimistic todo;
       ToggleTodoCompleteRejected todo (messageOf e "Failed to update todo")]
  end.

(** [fetchTodos] has no body of its own around its [await].  When the
    remote call throws, the rejected action carries the error as
    [createAsyncThunk] serialises it: the [message] of an [Error] instance;
    what is kept of another thrown value is the input [serialized]. *)
Definition fetchTodos_submit : list Action := [FetchTodosPending].

Definition fetchTodos_settle (response : Js.Settled (list Todo.t))
    (serialized : option string) : list Action :=
  match response with
  | Js.Resolved todos => [FetchTodosFulfilled todos]
  | Js.Threw (Js.ErrorInstance message) => [FetchTodosRejected (Some message)]
  | Js.Threw Js.OtherValue => [FetchTodosRejected serialized]
  end.


(** The mirror entry of an identifier: the first todo that has it. *)
Definition entry (id : string) (state : TodoState) : option Todo.t :=
  snd <$> list_find (λ todo, Todo.id todo = id) (todos state).

End Slice.

(** ** [services/todoApi.ts] *)

Module TodoApi.

(** What the API reads of the response [fetch] resolves to: [response.ok],
    and what [response.json()] settles to. *)
Record Response (A : Type) : Type := mkResponse {
  ok : bool;
  json : Js.Settled A;
}.
Arguments mkResponse {A} ok json.
Arguments ok {A} r.
Arguments json {A} r.

(** The shared shape of the four calls, from what [await fetch(...)]
    settles to: a throw of [fetch] goes through, a response that is not
    [ok] throws an [Error] with the call's text. *)
Definition getAllTodos (fetched : Js.Settled (Response (list Todo.t)))
  : Js.Settled (list Todo.t) :=
  match fetched with
  | Js.Threw e => Js.Threw e
  | Js.Resolved response =>
      if ok response then json response
      else Js.Threw (Js.ErrorInstance "Failed to fetch todos")
  end.

Definition createTodo (fetched : Js.Settled (Response Todo.t))
  : Js.Settled Todo.t :=
  match fetched with
  | Js.Threw e => Js.Threw e
  | Js.Resolved response =>
      if ok response then json response
      else Js.Threw (Js.ErrorInstance "Failed to create todo")
  end.

Definition updateTodo (fetched : Js.Settled (Response Todo.t))
  : Js.Settled Todo.t :=
  match fetched with
  | Js.Threw e => Js.Threw e
  | Js.Resolved response =>
      if ok response then json response
      else Js.Threw (Js.ErrorInstance "Failed to update todo")
  end.

(** [deleteTodo] does not read the body. *)
Definition deleteTodo (fetched : Js.Settled (Response unit))
  : Js.Settled unit :=
  match fetched with
  | Js.Threw e => Js.Threw e
  | Js.Resolved response =>
      if ok response then Js.Resolved ()
      else Js.Threw (Js.ErrorInstance "Failed to delete todo")
  end.

End TodoApi.

(** ** [utils/todoUtils.ts] *)

Module Utils.
Import Slice.

Definition filterTodos (todos : Js.ref) (filter : FilterType)
    (h : gmap Js.ref (list Todo.t)) : Js.ref * gmap Js.ref (list Todo.t) :=
  match filter with
  | FilterActive => Js.Array_filter (λ todo, negb (Todo.completed todo)) todos h
  | FilterCompleted => Js.Array_filter (λ todo, Todo.completed todo) todos h
  | FilterAll => (todos, h)
  end.

Definition priorityOrder (p : Priority) : Z :=
  match p with
  | high => 3
  | medium => 2
  | low => 1
  end.

Definition compare_priority (a b : Todo.t) : Js.number :=
  Js.Num (priorityOrder (Todo.priority b) - priorityOrder (Todo.priority a)).

(** A [Date] object is truthy, the Invalid Date too. *)
Definition compare_dueDate (a b : Todo.t) : Js.number :=
  match Todo.dueDate a, Todo.dueDate b with
  | None, None => Js.Num 0
  | None, Some _ => Js.Num 1
  | Some _, None => Js.Num (-1)
  | Some da, Some db => Js.minus (getTime da) (getTime db)
  end.

Definition compare_created (a b : Todo.t) : Js.number :=
  Js.minus (getTime (Todo.createdAt b)) (getTime (Todo.createdAt a)).

Definition comparator (sort : SortType) : Todo.t → Todo.t → Js.number :=
  match sort with
  | SortPriority => compare_priority
  | SortDueDate => compare_dueDate
  | SortCreated => compare_created
  end.

Definition sortTodos (todos : Js.ref) (sort : SortType)
    (h : gmap Js.ref (list Todo.t)) : Js.ref * gmap Js.ref (list Todo.t) :=
  let '(sortedTodos, h) := Js.Array_spread todos h in
  match sort with
  | SortPriority => Js.Array_sort compare_priority sortedTodos h
  | SortDueDate => Js.Array_sort compare_dueDate sortedTodos h
  | SortCreated => Js.Array_sort compare_created sortedTodos h
  end.

Definition getFilteredAndSortedTodos (todos : Js.ref) (filter : FilterType)
    (sort : SortType) (h : gmap Js.ref (list Todo.t))
  : Js.ref * gmap Js.ref (list Todo.t) :=
  let '(filtered, h) := filterTodos todos filter h in
  sortTodos filtered sort h.

End Utils.

(** ** [components/TodoList.tsx] and [components/TodoItem.tsx]: what is shown *)

Module View.
Import Slice.

(** [getFilteredAndSortedTodos(todos, filter, sort)] as [TodoList] calls it
    on the store's [todos], [filter] and [sort]: the elements of the array
    it returns. *)
Definition projection (l : list Todo.t) (filter : FilterType) (sort : SortType)
  : list Todo.t :=
  let '(todos, h) := Js.alloc l ∅ in
  let '(result, h) := Utils.getFilteredAndSortedTodos todos filter sort h in
  Js.elements_of h result.








(** What a handler of [TodoItem] dispatches: a plain action or the
    [updateTodo] thunk. *)
Inductive Dispatched : Type :=
| DispatchAction (action : Action)
| DispatchUpdateTodo (arg : UpdateTodoArg).

(** [field || undefined], written as the value of a key of an object
    literal. *)
Definition orUndefined (f : Js.Field string) : Js.Field string :=
  match Js.read f with
  | Some v => if Js.truthy v then Js.Value v else Js.Undefined
  | None => Js.Undefined
  end.

Section TodoItem.
(** [String.prototype.trim] *)
Context (trim : string → string).

(** [handleSaveEdit], from the [todo] of the item and the edit form's
    [editData]. *)
Definition handleSaveEdit (todo : Todo.t) (editData : UpdateTodoRequest.t)
  : Dispatched :=
  let titleOk :=
    match Js.read (UpdateTodoRequest.title editData) with
    | Some title => Js.truthy (trim title)
    | None => false
    end in
  if negb titleOk then DispatchAction (SetError (Some "Title is required"))
  else
    DispatchUpdateTodo
      {| id := Todo.id todo;
         todoData :=
           {| UpdateTodoRequest.title := UpdateTodoRequest.title editData;
              UpdateTodoRequest.description :=
                orUndefined (UpdateTodoRequest.description editData);
              UpdateTodoRequest.completed :=
                UpdateTodoRequest.completed editData;
              UpdateTodoRequest.priority :=
                UpdateTodoRequest.priority editData;
              UpdateTodoRequest.dueDate :=
                orUndefined (UpdateTodoRequest.dueDate editData) |};
         originalTodo := todo |}.

End TodoItem.

End View.

(** ** [backend/src/todos/todo.service.ts] *)

Module TodoService.

Record t : Type := mk {
  todos : list Todo.t;
  idCounter : Z;
}.

Inductive NotFoundException : Type :=
| NotFound (message : string).

(** [this.todos.find(t => t.id === id)]: the first todo with that [id], an
    element of the array (here with its index), or the exception. *)
Definition findOne (id : string) (this : t)
  : NotFoundException + (nat * Todo.t) :=
  match list_find (λ t, Todo.id t = id) (todos this) with
  | Some found => inr found
  | None => inl (NotFound ("Todo with ID " ++ id ++ " not found")%string)
  end.

(** Modelled from the spec: the declaration of [UpdateTodoDto]
    ([dto/update-todo.dto.ts]) is not among the sources.  [update] reads its
    properties [title], [description], [completed], [priority] and
    [dueDate], each of them optional: the field changes of the remote
    store's [update(id, fieldChanges)], which the client sends as an
    [UpdateTodoRequest]. *)
Definition UpdateTodoDto : Type := UpdateTodoRequest.t.

Section Update.
Context `{DateParser}.

(** The assignments [update] makes to the todo it found. *)
Definition assign (updateTodoDto : UpdateTodoDto) (now : Date)
    (todo : Todo.t) : Todo.t :=
  {| Todo.id := Todo.id todo;
     Todo.title :=
       match Js.read (UpdateTodoRequest.title updateTodoDto) with
       | Some v => v
       | None => Todo.title todo
       end;
     Todo.description :=
       match Js.read (UpdateTodoRequest.description updateTodoDto) with
       | Some v => Some v
       | None => Todo.description todo
       end;
     Todo.completed :=
       match Js.read (UpdateTodoRequest.completed updateTodoDto) with
       | Some v => v
       | None => Todo.completed todo
       end;
     Todo.priority :=
       match Js.read (UpdateTodoRequest.priority updateTodoDto) with
       | Some v => v
       | None => Todo.priority todo
       end;
     Todo.dueDate :=
       match Js.read (UpdateTodoRequest.dueDate updateTodoDto) with
       | Some v => if Js.truthy v then Some (parseDate v) else None
       | None => Todo.dueDate todo
       end;
     Todo.createdAt := Todo.createdAt todo;
     Todo.updatedAt := now |}.

(** [update(id, updateTodoDto)]: the todo is changed in place, so the array
    holds the changed todo at the index where it was found; the result is
    that todo and the service afterwards. *)
Definition update (id : string) (updateTodoDto : UpdateTodoDto)
    (now : Date) (this : t) : NotFoundException + (Todo.t * t) :=
  match findOne id this with
  | inl e => inl e
  | inr (index, todo) =>
      let todo' := assign updateTodoDto now todo in
      inr (todo', mk (<[index := todo']> (todos this)) (idCounter this))
  end.

End Update.

(** [backend/src/todos/dto/create-todo.dto.ts] *)
Record CreateTodoDto : Type := mkCreateTodoDto {
  title : string;
  description : option string;
  priority : Priority;
  dueDate : option string;
}.

(** The service as constructed: [todos = []], [idCounter = 1]. *)
Definition initial : t := mk [] 1.

Definition findAll (this : t) : list Todo.t := todos this.

Section Create.
Context `{DateParser}.

(** [create(createTodoDto)]: the new todo and the service afterwards.
    [this.idCounter.toString()] is the decimal numeral of the counter. *)
Definition create (createTodoDto : CreateTodoDto) (now : Date) (this : t)
  : Todo.t * t :=
  let todo :=
    {| Todo.id := pretty (idCounter this);
       Todo.title := title createTodoDto;
       Todo.description := description createTodoDto;
       Todo.completed := false;
       Todo.priority := priority createTodoDto;
       Todo.dueDate :=
         match dueDate createTodoDto with
         | Some d => if Js.truthy d then Some (parseDate d) else None
         | None => None
         end;
       Todo.createdAt := now;
       Todo.updatedAt := now |} in
  (todo, mk (todos this ++ [todo]) (Js.incremented (idCounter this))).

End Create.

(** [remove(id)]: [splice(index, 1)] at the first index with that [id]. *)
Definition remove (id : string) (this : t) : NotFoundException + t :=
  match Js.findIndex (λ t, Todo.id t = id) (todos this) with
  | None => inl (NotFound ("Todo with ID " ++ id ++ " not found")%string)
  | Some index => inr (mk (delete index (todos this)) (idCounter this))
  end.

Record ByPriority : Type := mkByPriority {
  byHigh : Z;
  byMedium : Z;
  byLow : Z;
}.

Record Statistics : Type := mkStatistics {
  total : Z;
  completed : Z;
  active : Z;
  byPriority : ByPriority;
}.

(** [this.todos.filter(p).length] *)
Definition countWhere (p : Todo.t → bool) (this : t) : Z :=
  Z.of_nat (length (List.filter p (todos this))).

Definition getStatistics (this : t) : Statistics :=
  let total := Z.of_nat (length (todos this)) in
  let completed := countWhere Todo.completed this in
  let active := total - completed in
  let byPriority :=
    {| byHigh := countWhere (λ todo, bool_decide (Todo.priority todo = high)) this;
       byMedium :=
         countWhere (λ todo, bool_decide (Todo.priority todo = medium)) this;
       byLow := countWhere (λ todo, bool_decide (Todo.priority todo = low)) this
    |} in
  {| total := total; completed := completed; active := active;
     byPriority := byPriority |}.

Definition clearAll (this : t) : t := mk [] 1.

(** [initializeSeedData()].  [now] is the [new Date()] it starts with;
    [clock1], [clock2], [clock4] and [clock5] are what the four calls of
    [Date.now()] in the due dates of the todos 1, 2, 4 and 5 read. *)
Definition seedTodos (now clock1 clock2 clock4 clock5 : Z) : list Todo.t :=
  [ {| Todo.id := "1";
       Todo.title := "Welcome to your Todo App! 🎉";
       Todo.description :=
         Some "This is your first todo item. You can edit, complete, or delete it. Try clicking the edit button to modify this todo.";
       Todo.completed := false;
       Todo.priority := medium;
       Todo.dueDate := Some (Time (clock1 + 7 * 24 * 60 * 60 * 1000));
       Todo.createdAt := now;
       Todo.updatedAt := now |};
    {| Todo.id := "2";
       Todo.title := "Try the filtering options";
       Todo.description :=
         Some "Use the filter buttons above to view all, active, or completed todos. This helps you organize and focus on what needs to be done.";
       Todo.completed := false;
       Todo.priority := high;
       Todo.dueDate := Some (Time (clock2 + 3 * 24 * 60 * 60 * 1000));
       Todo.createdAt := now - 60 * 60 * 1000;
       Todo.updatedAt := now - 60 * 60 * 1000 |};
    {| Todo.id := "3";
       Todo.title := "Test the sorting features";
       Todo.description :=
         Some "Sort todos by priority, due date, or creation date using the dropdown menu. This example is already completed to show you the different states.";
       Todo.completed := true;
       Todo.priority := low;
       Todo.dueDate := None;
       Todo.createdAt := now - 2 * 60 * 60 * 1000;
       Todo.updatedAt := now - 30 * 60 * 1000 |};
    {| Todo.id := "4";
       Todo.title := "Create your own todos";
       Todo.description :=
         Some "Use the form above to create new todos. You can set priority levels, due dates, and descriptions.";
       Todo.completed := false;
       Todo.priority := medium;
       Todo.dueDate := Some (Time (clock4 + 1 * 24 * 60 * 60 * 1000));
       Todo.createdAt := now - 3 * 60 * 60 * 1000;
       Todo.updatedAt := now - 3 * 60 * 60 * 1000 |};
    {| Todo.id := "5";
       Todo.title := "Mark this todo as complete";
       Todo.description :=
         Some "Click the checkbox next to this todo to mark it as completed and see how the UI changes.";
       Todo.completed := false;
       Todo.priority := high;
       Todo.dueDate := Some (Time (clock5 + 2 * 24 * 60 * 60 * 1000));
       Todo.createdAt := now - 4 * 60 * 60 * 1000;
       Todo.updatedAt := now - 4 * 60 * 60 * 1000 |} ].

Definition initializeSeedData (now clock1 clock2 clock4 clock5 : Z) (this : t)
  : t :=
  if bool_decide (length (todos this) = 0%nat) then
    mk (seedTodos now clock1 clock2 clock4 clock5) 6
  else this.

End TodoService.

(** ** The request bodies on the wire

    [todoApi] sends [JSON.stringify(todo)] as the body and the backend reads
    the parsed body as its dto: a key holding [undefined] is not written, so
    it is missing on the other side. *)

Module Wire.




End Wire.

(** ** Vocabulary of the properties *)

Module Spec.
Import Slice.

(** The filter predicate: membership in all, active or completed, by the
    completed flag. *)
Definition passes (filter : FilterType) (todo : Todo.t) : bool :=
  match filter with
  | FilterAll => true
  | FilterActive => negb (Todo.completed todo)
  | FilterCompleted => Todo.completed todo
  end.

(** [p] ranks no higher than [q], for low < medium < high. *)
Definition rankLe (p q : Priority) : Prop :=
  match p, q with
  | low, _ => True
  | medium, low => False
  | medium, _ => True
  | high, high => True
  | high, _ => False
  end.

(** [a] may stand before [b] in the selected order: creation time
    descending, priority rank descending, or due date ascending with the
    todos that have no due date last. *)
Definition before (sort : SortType) (a b : Todo.t) : Prop :=
  match sort with
  | SortCreated =>
      match Todo.createdAt a, Todo.createdAt b with
      | Time ta, Time tb => tb ≤ ta
      | _, _ => False
      end
  | SortPriority => rankLe (Todo.priority b) (Todo.priority a)
  | SortDueDate =>
      match Todo.dueDate a, Todo.dueDate b with
      | Some (Time da), Some (Time db) => da ≤ db
      | Some (Time _), None => True
      | None, None => True
      | _, _ => False
      end
  end.

(** The date the selected order reads of a todo is a valid date: the
    creation time for [created], the due date, when there is one, for
    [dueDate]. *)
Definition sortable (sort : SortType) (todo : Todo.t) : Prop :=
  match sort with
  | SortCreated => Todo.createdAt todo ≠ InvalidDate
  | SortPriority => True
  | SortDueDate => Todo.dueDate todo ≠ Some InvalidDate
  end.

(** An action that leaves an identifier alone: it is no action on a todo of
    that identifier or on its pending record, and it is no fetched list. *)
Definition leavesAlone (i : string) (action : Action) : Prop :=
  match action with
  | AddTodoOptimistic payload | UpdateTodoOptimistic payload =>
      Todo.id payload ≠ i
  | MarkTodoAsDeleting k | UnmarkTodoAsDeleting k | RemoveOptimisticTodo k =>
      k ≠ i
  | FetchTodosFulfilled _ => False
  | CreateTodoFulfilled _ tempId newTodo => tempId ≠ i ∧ Todo.id newTodo ≠ i
  | UpdateTodoFulfilled _ payload | ToggleTodoCompleteFulfilled _ payload =>
      Todo.id payload ≠ i
  | DeleteTodoFulfilled _ k => k ≠ i
  | _ => True
  end.

(** The todos of a list that have an identifier. *)
Definition withId (i : string) (l : list Todo.t) : list Todo.t :=
  List.filter (λ todo, bool_decide (Todo.id todo = i)) l.

(** Two states agree on everything but the mirror entries and the pending
    record of identifier [i] (and the [error] text). *)
Definition agreeExceptOn (i : string) (s s' : TodoState) : Prop :=
  List.filter (λ todo, bool_decide (Todo.id todo ≠ i)) (todos s')
    = List.filter (λ todo, bool_decide (Todo.id todo ≠ i)) (todos s)
  ∧ (∀ k, k ≠ i → optimisticOperations s' !! k = optimisticOperations s !! k)
  ∧ loading s' = loading s ∧ filter s' = filter s ∧ sort s' = sort s.


(** The identifiers of the mirror, in the mirror's order. *)
Definition ids (state : TodoState) : list string := Todo.id <$> todos state.

(** What the three actions that bring todos into the mirror need so as not
    to bring a second todo for an identifier. *)
Definition bringsNoDuplicate (state : TodoState) (action : Action) : Prop :=
  match action with
  | AddTodoOptimistic payload => Todo.id payload ∉ ids state
  | FetchTodosFulfilled payload => NoDup (Todo.id <$> payload)
  | CreateTodoFulfilled _ tempId newTodo =>
      Todo.id newTodo = tempId ∨ Todo.id newTodo ∉ ids state
  | _ => True
  end.

(** The backend's identifiers are numerals the counter has passed, one todo
    for each. *)
Definition issuedIds (this : TodoService.t) : Prop :=
  1 ≤ TodoService.idCounter this
  ∧ NoDup (Todo.id <$> TodoService.todos this)
  ∧ Forall
      (λ todo, ∃ n : Z, 1 ≤ n < TodoService.idCounter this
                        ∧ Todo.id todo = pretty n)
      (TodoService.todos this).

(** The calls that change the backend's collection while it serves, and the
    service after a call (as it was when the call throws). *)
Inductive Call : Type :=
| CallCreate (createTodoDto : TodoService.CreateTodoDto) (now : Date)
| CallUpdate (id : string) (updateTodoDto : TodoService.UpdateTodoDto)
    (now : Date)
| CallRemove (id : string).

Definition after `{DateParser} (this : TodoService.t) (call : Call)
  : TodoService.t :=
  match call with
  | CallCreate createTodoDto now =>
      (TodoService.create createTodoDto now this).2
  | CallUpdate id updateTodoDto now =>
      match TodoService.update id updateTodoDto now this with
      | inr (_, this') => this'
      | inl _ => this
      end
  | CallRemove id =>
      match TodoService.remove id this with
      | inr this' => this'
      | inl _ => this
      end
  end.

Definition afterAll `{DateParser} (calls : list Call) (this : TodoService.t)
  : TodoService.t :=
  foldl after this calls.

(** The identifiers the [create] calls of a run of calls give out, in the
    order of the calls. *)
Fixpoint createdIds `{DateParser} (calls : list Call) (this : TodoService.t)
  : list string :=
  match calls with
  | [] => []
  | call :: calls =>
      match call with
      | CallCreate createTodoDto now =>
          [Todo.id (TodoService.create createTodoDto now this).1]
      | _ => []
      end ++ createdIds calls (after this call)
  end.


(** The order a comparator stands for: [x] is not after [y] when the
    comparator's number for them is not positive. *)
Definition notAfter {A} (compareFn : A → A → Z) : relation A :=
  λ x y, compareFn x y ≤ 0.

End Spec.

(** ** Sample data *)

Module Sample.
Import Slice.

(** A parser for the samples: every date string is the epoch. *)
Definition epoch : DateParser := λ _, 0.

Definition buyMilk : Todo.t :=
  {| Todo.id := "1"; Todo.title := "Buy milk";
     Todo.description := Some "2 litres"; Todo.completed := false;
     Todo.priority := low; Todo.dueDate := None;
     Todo.createdAt := 1000; Todo.updatedAt := 1000 |}.

Definition oneTodo : TodoState :=
  {| todos := [buyMilk]; loading := false; error := None;
     filter := FilterActive; sort := SortCreated;
     optimisticOperations := ∅ |}.

(** [{ title: 'Buy oat milk' }] *)
Definition rename : UpdateTodoRequest.t :=
  {| UpdateTodoRequest.title := Js.Value "Buy oat milk";
     UpdateTodoRequest.description := Js.Missing;
     UpdateTodoRequest.completed := Js.Missing;
     UpdateTodoRequest.priority := Js.Missing;
     UpdateTodoRequest.dueDate := Js.Missing |}.

(** [{ priority: 'high' }] *)
Definition raise : UpdateTodoRequest.t :=
  {| UpdateTodoRequest.title := Js.Missing;
     UpdateTodoRequest.description := Js.Missing;
     UpdateTodoRequest.completed := Js.Missing;
     UpdateTodoRequest.priority := Js.Value high;
     UpdateTodoRequest.dueDate := Js.Missing |}.

(** [{ title: 'Buy milk', description: undefined }], as [TodoItem] builds the
    request when the description box was emptied. *)
Definition emptied : UpdateTodoRequest.t :=
  {| UpdateTodoRequest.title := Js.Value "Buy milk";
     UpdateTodoRequest.description := Js.Undefined;
     UpdateTodoRequest.completed := Js.Missing;
     UpdateTodoRequest.priority := Js.Missing;
     UpdateTodoRequest.dueDate := Js.Missing |}.

Definition renameArg : UpdateTodoArg :=
  {| id := "1"; todoData := rename; originalTodo := buyMilk |}.

Definition raiseArg : UpdateTodoArg :=
  {| id := "1"; todoData := raise; originalTodo := buyMilk |}.

Definition emptiedArg : UpdateTodoArg :=
  {| id := "1"; todoData := emptied; originalTodo := buyMilk |}.

(** What the server answers to [raise]. *)
Definition raised : Todo.t :=
  {| Todo.id := "1"; Todo.title := "Buy milk";
     Todo.description := Some "2 litres"; Todo.completed := false;
     Todo.priority := high; Todo.dueDate := None;
     Todo.createdAt := 1000; Todo.updatedAt := 2500 |}.

Definition walkDog : Todo.t :=
  {| Todo.id := "2"; Todo.title := "Walk the dog";
     Todo.description := None; Todo.completed := true;
     Todo.priority := high; Todo.dueDate := Some (Time 5000);
     Todo.createdAt := 1500; Todo.updatedAt := 1800 |}.

Definition payRent : Todo.t :=
  {| Todo.id := "3"; Todo.title := "Pay the rent";
     Todo.description := None; Todo.completed := false;
     Todo.priority := medium; Todo.dueDate := Some (Time 4000);
     Todo.createdAt := 500; Todo.updatedAt := 500 |}.

Definition threeTodos : list Todo.t := [buyMilk; walkDog; payRent].

(** A todo whose creation time is the Invalid Date. *)
Definition undated : Todo.t :=
  {| Todo.id := "4"; Todo.title := "Call back";
     Todo.description := None; Todo.completed := false;
     Todo.priority := low; Todo.dueDate := None;
     Todo.createdAt := InvalidDate; Todo.updatedAt := InvalidDate |}.

Definition milkRequest : CreateTodoRequest.t :=
  {| CreateTodoRequest.title := "Buy milk";
     CreateTodoRequest.description := None;
     CreateTodoRequest.priority := low;
     CreateTodoRequest.dueDate := None |}.

Definition created42 : Todo.t :=
  {| Todo.id := "42"; Todo.title := "Buy milk";
     Todo.description := None; Todo.completed := false;
     Todo.priority := low; Todo.dueDate := None;
     Todo.createdAt := 3000; Todo.updatedAt := 3000 |}.

Definition failed (text : string) {A} : Js.Settled A :=
  Js.Threw (Js.ErrorInstance text).


Definition service : TodoService.t := TodoService.mk threeTodos 4.

Definition milkDto : TodoService.CreateTodoDto :=
  {| TodoService.title := "Buy milk";
     TodoService.description := None;
     TodoService.priority := low;
     TodoService.dueDate := None |}.

End Sample.

(** * Properties *)

Import Slice.

(** ** Finding and replacing a todo by its identifier *)

Section ById.
Implicit Types (l : list Todo.t) (e t : Todo.t) (i : string).

Lemma indexOfId_Some l i n :
  indexOfId i l = Some n ↔
  ∃ t, l !! n = Some t ∧ Todo.id t = i ∧
       ∀ j y, l !! j = Some y → (j < n)%nat → Todo.id y ≠ i.
Proof.
  unfold indexOfId, Js.findIndex. rewrite fmap_Some. split.
  - intros [[n' t] [(Hn & Ht & Hleast)%list_find_Some ->]].
    exists t. by split_and!.
  - intros (t & Hn & Ht & Hleast). exists (n, t). split; [|done].
    apply list_find_Some. by split_and!.
Qed.

Lemma indexOfId_None l i :
  indexOfId i l = None ↔ Forall (λ t, Todo.id t ≠ i) l.
Proof.
  unfold indexOfId, Js.findIndex. rewrite fmap_None. apply list_find_None.
Qed.

Lemma find_insert_first l i n e :
  indexOfId i l = Some n → Todo.id e = i →
  list_find (λ t, Todo.id t = i) (<[n := e]> l) = Some (n, e).
Proof.
  intros (t & Hn & _ & Hleast)%indexOfId_Some He.
  apply list_find_insert_Some. right; left.
  split_and!; eauto using lookup_lt_Some.
Qed.

Lemma indexOfId_insert_first l i n e :
  indexOfId i l = Some n → Todo.id e = i →
  indexOfId i (<[n := e]> l) = Some n.
Proof.
  intros Hn He. unfold indexOfId, Js.findIndex.
  by rewrite (find_insert_first l i n e).
Qed.

Lemma replaceById_absent l i e :
  indexOfId i l = None → replaceById i e l = l.
Proof. unfold replaceById. by intros ->. Qed.

Lemma replaceById_twice l e :
  replaceById (Todo.id e) e (replaceById (Todo.id e) e l)
  = replaceById (Todo.id e) e l.
Proof.
  unfold replaceById at 2 3.
  destruct (indexOfId (Todo.id e) l) as [n|] eqn:Hn.
  - unfold replaceById. rewrite (indexOfId_insert_first l _ n e) by done.
    apply list_insert_insert_eq.
  - by apply replaceById_absent.
Qed.

End ById.

(** ** Assigning to a key of the pending records *)

Section Assign.
Context {V : Type}.
Implicit Types (obj : gmap string V) (key k : string) (v : V).

Lemma lookup_assign_eq key v obj :
  key ≠ "__proto__" → Js.assign key v obj !! key = Some v.
Proof.
  intros Hkey. unfold Js.assign.
  rewrite bool_decide_eq_false_2 by (by intros [? _]).
  apply lookup_insert_eq.
Qed.

Lemma lookup_assign_ne key k v obj :
  key ≠ k → Js.assign key v obj !! k = obj !! k.
Proof.
  intros Hne. unfold Js.assign. case_bool_decide; [done|].
  by apply lookup_insert_ne.
Qed.

Lemma delete_assign key v obj :
  delete key (Js.assign key v obj) = delete key obj.
Proof.
  unfold Js.assign. case_bool_decide; [done|]. apply delete_insert_eq.
Qed.

Lemma delete_assign_id key v obj :
  obj !! key = None → delete key (Js.assign key v obj) = obj.
Proof. intros Hnone. rewrite delete_assign. by apply delete_id. Qed.

End Assign.

(** ** The confirmed-update handler is idempotent *)

(** C8.  Applying the confirmed-update handler ([updateTodo.fulfilled]) a
    second time with the same server entity leaves the whole state, its
    [todos] and its [optimisticOperations] included, as the first
    application left it. *)
Theorem updateTodo_fulfilled_idempotent
    (state : TodoState) (arg : UpdateTodoArg) (serverTodo : Todo.t) :
  let once := reducer state (UpdateTodoFulfilled arg serverTodo) in
  reducer once (UpdateTodoFulfilled arg serverTodo) = once.
Proof.
  simpl. unfold updateTodo_fulfilled, set_optimisticOperations, set_todos.
  simpl. f_equal.
  - apply replaceById_twice.
  - apply delete_delete_eq.
Qed.

(** ** An optimistic update of an unknown identifier *)

(** C9.  Dispatching [updateTodoOptimistic] with an entity whose identifier
    has no entry in the mirror leaves the whole state unchanged: nothing is
    inserted into [todos] and no [optimisticOperations] record is made. *)
Theorem updateTodoOptimistic_unknown_id
    (state : TodoState) (payload : Todo.t) :
  entry (Todo.id payload) state = None →
  reducer state (UpdateTodoOptimistic payload) = state.
Proof.
  unfold entry. rewrite fmap_None. intros Hnone.
  simpl. unfold updateTodoOptimistic, indexOfId, Js.findIndex.
  by rewrite Hnone.
Qed.

(** ** Creating a todo *)

Section Create.
Context `{DateParser}.

Lemma createTodo_submit_state state todoData tempId now :
  dispatch (createTodo_submit todoData tempId now) state
  = addTodoOptimistic (createTodo_optimisticTodo todoData tempId now) state.
Proof. reflexivity. Qed.

Lemma entry_None_find state i :
  entry i state = None ↔ list_find (λ t, Todo.id t = i) (todos state) = None.
Proof. unfold entry. apply fmap_None. Qed.

End Create.

(** ** Writing an entity over its mirror entry *)

Section Writes.
Implicit Types (state : TodoState) (p e : Todo.t) (i : string).

Lemma entry_replaceById (l : list Todo.t) i e :
  Todo.id e = i →
  is_Some (list_find (λ t, Todo.id t = i) l) →
  snd <$> list_find (λ t, Todo.id t = i) (replaceById i e l) = Some e.
Proof.
  intros He [[n t] Hf]. unfold replaceById.
  assert (Hn : indexOfId i l = Some n).
  { unfold indexOfId, Js.findIndex. by rewrite Hf. }
  rewrite Hn, (find_insert_first l i n e) by done. done.
Qed.

Lemma entry_is_Some state i :
  is_Some (entry i state) ↔
  is_Some (list_find (λ t, Todo.id t = i) (todos state)).
Proof. unfold entry. apply fmap_is_Some. Qed.

Lemma todos_updateTodoOptimistic state p :
  todos (updateTodoOptimistic p state)
  = replaceById (Todo.id p) p (todos state).
Proof.
  unfold updateTodoOptimistic, replaceById.
  by destruct (indexOfId (Todo.id p) (todos state)).
Qed.

Lemma entry_updateTodoOptimistic state p :
  is_Some (entry (Todo.id p) state) →
  entry (Todo.id p) (updateTodoOptimistic p state) = Some p.
Proof.
  intros Hp%entry_is_Some. unfold entry.
  rewrite todos_updateTodoOptimistic. by apply entry_replaceById.
Qed.

Lemma pending_updateTodoOptimistic state p :
  Todo.id p ≠ "__proto__" →
  is_Some (entry (Todo.id p) state) →
  optimisticOperations (updateTodoOptimistic p state) !! Todo.id p
  = Some updating.
Proof.
  intros Hkey [[n t] Hf]%entry_is_Some. unfold updateTodoOptimistic.
  unfold indexOfId, Js.findIndex. rewrite Hf. simpl.
  by apply lookup_assign_eq.
Qed.

Lemma entry_updateTodo_fulfilled state e :
  is_Some (entry (Todo.id e) state) →
  entry (Todo.id e) (updateTodo_fulfilled e state) = Some e.
Proof.
  intros He%entry_is_Some. unfold entry. simpl. by apply entry_replaceById.
Qed.


End Writes.

(** ** Two updates of one identifier in flight *)

Section Superseding.
Context `{DateParser}.


End Superseding.



(** ** Failed remote calls *)

Section Frame.
Implicit Types (l : list Todo.t) (p t : Todo.t) (i : string).

Lemma filter_others_insert l i n p t :
  l !! n = Some t → Todo.id t = i → Todo.id p = i →
  List.filter (λ todo, bool_decide (Todo.id todo ≠ i)) (<[n := p]> l)
  = List.filter (λ todo, bool_decide (Todo.id todo ≠ i)) l.
Proof.
  intros Hn Ht Hp. revert n Hn.
  induction l as [|x l IH]; intros [|n] Hn; simplify_eq/=.
  - rewrite !bool_decide_eq_false_2; [done| |]; intros Hne; by apply Hne.
  - by rewrite (IH n Hn).
Qed.

Lemma filter_others_replaceById l i p :
  Todo.id p = i →
  List.filter (λ todo, bool_decide (Todo.id todo ≠ i)) (replaceById i p l)
  = List.filter (λ todo, bool_decide (Todo.id todo ≠ i)) l.
Proof.
  intros Hp. unfold replaceById.
  destruct (indexOfId i l) as [n|] eqn:Hn; [|done].
  apply indexOfId_Some in Hn as (t & Hn & Ht & _).
  by apply (filter_others_insert l i n p t).
Qed.

Lemma filter_others_twice l i :
  List.filter (λ todo, bool_decide (Todo.id todo ≠ i))
    (List.filter (λ todo, bool_decide (Todo.id todo ≠ i)) l)
  = List.filter (λ todo, bool_decide (Todo.id todo ≠ i)) l.
Proof.
  induction l as [|x l IH]; simpl; [done|].
  destruct (bool_decide (Todo.id x ≠ i)) eqn:Hx; simpl; [|done].
  by rewrite Hx, IH.
Qed.

Lemma filter_others_all l i :
  Forall (λ t, Todo.id t ≠ i) l →
  List.filter (λ todo, bool_decide (Todo.id todo ≠ i)) l = l.
Proof.
  induction 1 as [|x l Hx _ IH]; simpl; [done|].
  by rewrite bool_decide_eq_true_2, IH.
Qed.

Lemma updateTodoOptimistic_frame (state : TodoState) p :
  Spec.agreeExceptOn (Todo.id p) state (updateTodoOptimistic p state).
Proof.
  unfold Spec.agreeExceptOn. rewrite todos_updateTodoOptimistic.
  split; [by apply filter_others_replaceById|].
  unfold updateTodoOptimistic.
  destruct (indexOfId (Todo.id p) (todos state)); simpl; [|done].
  split_and!; try done. intros k Hk. by apply lookup_assign_ne.
Qed.

Lemma removeOptimisticTodo_frame (state : TodoState) i :
  Spec.agreeExceptOn i state (removeOptimisticTodo i state).
Proof.
  unfold Spec.agreeExceptOn. simpl.
  split; [apply filter_others_twice|].
  split_and!; try done. intros k Hk. by apply lookup_delete_ne.
Qed.

Lemma unmarkTodoAsDeleting_frame (state : TodoState) i :
  Spec.agreeExceptOn i state (unmarkTodoAsDeleting i state).
Proof.
  unfold Spec.agreeExceptOn. simpl.
  split_and!; try done. intros k Hk. by apply lookup_delete_ne.
Qed.

End Frame.

(** C2, the code at a failing input.  The sample todo is renamed and the
    remote update fails: the mirror entry is the baseline again, but the
    pending record of the identifier, absent before the update, is left as
    [updating]: the rollback is itself an [updateTodoOptimistic], which sets
    the record, and [updateTodo.rejected] does not clear it. *)
Theorem updateTodo_failure_leaves_pending_record :
  let submitted :=
    dispatch (updateTodo_submit (H := Sample.epoch) Sample.renameArg 2000)
      Sample.oneTodo in
  let settled :=
    dispatch
      (updateTodo_settle Sample.renameArg
         (Sample.failed "Failed to update todo"))
      submitted in
  optimisticOperations Sample.oneTodo !! "1" = None
  ∧ entry "1" settled = Some Sample.buyMilk
  ∧ optimisticOperations settled !! "1" = Some updating.
Proof. vm_compute. by split_and!. Qed.

Section Failures.
Context `{DateParser}.

(** A failed update puts the baseline back and leaves the pending record of
    its identifier as [updating]. *)
Lemma updateTodo_failed
    (state : TodoState) (arg : UpdateTodoArg) (now : Date) (e : Js.Thrown) :
  Todo.id (originalTodo arg) ≠ "__proto__" →
  is_Some (entry (Todo.id (originalTodo arg)) state) →
  let settled :=
    dispatch (updateTodo_settle arg (Js.Threw e))
      (dispatch (updateTodo_submit arg now) state) in
  entry (Todo.id (originalTodo arg)) settled = Some (originalTodo arg)
  ∧ optimisticOperations settled !! Todo.id (originalTodo arg) = Some updating.
Proof.
  intros Hkey Hi settled.
  set (v := updateTodo_updatedTodo arg now).
  set (b := originalTodo arg) in *.
  assert (Hv : is_Some (entry (Todo.id b) (updateTodoOptimistic v state))).
  { change (Todo.id b) with (Todo.id v).
    rewrite entry_updateTodoOptimistic; eauto. }
  split.
  - by apply (entry_updateTodoOptimistic (updateTodoOptimistic v state) b).
  - by apply (pending_updateTodoOptimistic (updateTodoOptimistic v state) b).
Qed.

(** A failed create of a fresh temporary identifier leaves the mirror as it
    was before the create, with no entry and no pending record for the
    temporary identifier. *)
Lemma createTodo_failed
    (state : TodoState) (todoData : CreateTodoRequest.t) (tempId : string)
    (now : Date) (e : Js.Thrown) :
  entry tempId state = None →
  let settled :=
    dispatch (createTodo_settle todoData tempId (Js.Threw e))
      (dispatch (createTodo_submit todoData tempId now) state) in
  todos settled = todos state
  ∧ entry tempId settled = None
  ∧ optimisticOperations settled !! tempId = None.
Proof.
  intros Hfresh settled.
  assert (Hall : Forall (λ t, Todo.id t ≠ tempId) (todos state)).
  { apply entry_None_find in Hfresh. by apply list_find_None in Hfresh. }
  assert (Htodos : todos settled = todos state).
  { change (todos settled)
      with (List.filter (λ todo, bool_decide (Todo.id todo ≠ tempId))
              (todos state
               ++ [createTodo_optimisticTodo todoData tempId now])).
    rewrite List.filter_app. cbn [List.filter].
    rewrite bool_decide_eq_false_2 by (intros Hne; by apply Hne).
    rewrite app_nil_r. by apply filter_others_all. }
  split_and!; [done| |].
  - unfold entry. rewrite Htodos. exact Hfresh.
  - apply lookup_delete_eq.
Qed.

(** C6 (as the code has it).  Whatever the state when the remote call of a
    mutation fails: the thunk's last action is the rejected action of its
    kind, carrying the thunk's argument and as payload the text
    [messageOf e fallback], which depends on the thrown value and the kind's
    fallback text only; the state's [error] becomes that text; and the
    state otherwise changes at most in the mirror entries and the pending
    record of the mutation's own identifier. *)
Theorem failure_surfaced (state : TodoState) (e : Js.Thrown) :
  (∀ todoData tempId,
     let actions := createTodo_settle todoData tempId (Js.Threw e) in
     let text := messageOf e "Failed to create todo" in
     last actions = Some (CreateTodoRejected todoData text)
     ∧ error (dispatch actions state) = Some text
     ∧ Spec.agreeExceptOn tempId state (dispatch actions state))
  ∧ (∀ arg,
     let actions := updateTodo_settle arg (Js.Threw e) in
     let text := messageOf e "Failed to update todo" in
     last actions = Some (UpdateTodoRejected arg text)
     ∧ error (dispatch actions state) = Some text
     ∧ Spec.agreeExceptOn (Todo.id (originalTodo arg)) state
         (dispatch actions state))
  ∧ (∀ todoId,
     let actions := deleteTodo_settle todoId (Js.Threw e) in
     let text := messageOf e "Failed to delete todo" in
     last actions = Some (DeleteTodoRejected todoId text)
     ∧ error (dispatch actions state) = Some text
     ∧ Spec.agreeExceptOn todoId state (dispatch actions state))
  ∧ (∀ todo,
     let actions := toggleTodoComplete_settle todo (Js.Threw e) in
     let text := messageOf e "Failed to update todo" in
     last actions = Some (ToggleTodoCompleteRejected todo text)
     ∧ error (dispatch actions state) = Some text
     ∧ Spec.agreeExceptOn (Todo.id todo) state (dispatch actions state)).
Proof.
  split_and!.
  - intros todoData tempId. split_and!; try reflexivity.
    apply (removeOptimisticTodo_frame state tempId).
  - intros arg. split_and!; try reflexivity.
    apply (updateTodoOptimistic_frame state (originalTodo arg)).
  - intros todoId. split_and!; try reflexivity.
    apply (unmarkTodoAsDeleting_frame state todoId).
  - intros todo. split_and!; try reflexivity.
    apply (updateTodoOptimistic_frame state todo).
Qed.

End Failures.

(** C6, counterexample to the claim as stated.  No reading of the rejected
    action recovers the identifier a failed create affected: the action is
    the same for every temporary identifier.  And the [error] text a failed
    toggle of todo 1 leaves is the text a failed create leaves when the
    thrown value has that message: it names neither kind nor identifier. *)
Lemma failure_not_tagged :
  (¬ ∃ affected : Action → string,
       ∀ tempId, ∃ action,
         last (createTodo_settle Sample.milkRequest tempId
                 (Sample.failed "Failed to fetch"))
           = Some action
         ∧ affected action = tempId)
  ∧ error
      (dispatch
         (toggleTodoComplete_settle Sample.buyMilk
            (Sample.failed "Failed to fetch"))
         Sample.oneTodo)
    = error
        (dispatch
           (createTodo_settle Sample.milkRequest "temp-1"
              (Sample.failed "Failed to fetch"))
           Sample.oneTodo).
Proof.
  split; [|reflexivity].
  intros [affected Haff].
  destruct (Haff "temp-1") as (a1 & Ha1 & Hid1).
  destruct (Haff "temp-2") as (a2 & Ha2 & Hid2).
  simpl in Ha1, Ha2. injection Ha1 as <-. injection Ha2 as <-.
  rewrite Hid1 in Hid2. discriminate Hid2.
Qed.

(** ** The optimistic entity of an update *)

Lemma read_None {A} (f : Js.Field A) :
  Js.read f = None ↔ f = Js.Missing ∨ f = Js.Undefined.
Proof.
  destruct f; simpl; split; intros Hf; try discriminate; auto.
  destruct Hf; discriminate.
Qed.

Section Overlay.
Context `{DateParser}.

(** C5 (as the code has it).  Submitting an update of an identifier of the
    mirror applies the overlay of the field changes onto the baseline: a
    field that reads [undefined] in the field changes, its key missing or
    present holding [undefined], keeps the baseline value; a field that
    reads a value takes it, an empty title or description included, and an
    empty due-date string clears the due date; the identifier and the
    creation time are the baseline's and the modification time is the
    submit time. *)
Theorem updateTodo_overlay
    (state : TodoState) (arg : UpdateTodoArg) (now : Date) :
  is_Some (entry (Todo.id (originalTodo arg)) state) →
  let b := originalTodo arg in
  let d := todoData arg in
  let v := updateTodo_updatedTodo arg now in
  entry (Todo.id b) (dispatch (updateTodo_submit arg now) state) = Some v
  ∧ Todo.id v = Todo.id b
  ∧ Todo.createdAt v = Todo.createdAt b
  ∧ Todo.updatedAt v = now
  ∧ (Js.read (UpdateTodoRequest.title d) = None → Todo.title v = Todo.title b)
  ∧ (∀ x, Js.read (UpdateTodoRequest.title d) = Some x → Todo.title v = x)
  ∧ (Js.read (UpdateTodoRequest.description d) = None →
     Todo.description v = Todo.description b)
  ∧ (∀ x, Js.read (UpdateTodoRequest.description d) = Some x →
     Todo.description v = Some x)
  ∧ (Js.read (UpdateTodoRequest.completed d) = None →
     Todo.completed v = Todo.completed b)
  ∧ (∀ x, Js.read (UpdateTodoRequest.completed d) = Some x →
     Todo.completed v = x)
  ∧ (Js.read (UpdateTodoRequest.priority d) = None →
     Todo.priority v = Todo.priority b)
  ∧ (∀ x, Js.read (UpdateTodoRequest.priority d) = Some x →
     Todo.priority v = x)
  ∧ (Js.read (UpdateTodoRequest.dueDate d) = None →
     Todo.dueDate v = Todo.dueDate b)
  ∧ (∀ x, Js.read (UpdateTodoRequest.dueDate d) = Some x →
     Todo.dueDate v = if Js.truthy x then Some (parseDate x) else None).
Proof.
  intros Hi b d v.
  split.
  { change (dispatch (updateTodo_submit arg now) state)
      with (updateTodoOptimistic v state).
    change (Todo.id b) with (Todo.id v) in *.
    by apply entry_updateTodoOptimistic. }
  subst v. unfold updateTodo_updatedTodo. fold b d. simpl.
  split_and!; try done; try (by intros ->); by intros x ->.
Qed.

End Overlay.

(** C5, witness of [updateTodo_overlay]: renaming the sample todo. *)
Lemma updateTodo_overlay_witness :
  Todo.title (updateTodo_updatedTodo (H := Sample.epoch) Sample.renameArg 2000)
    = "Buy oat milk"
  ∧ Todo.description
      (updateTodo_updatedTodo (H := Sample.epoch) Sample.renameArg 2000)
    = Some "2 litres".
Proof.
  assert (Hi : is_Some (entry (Todo.id (originalTodo Sample.renameArg))
                          Sample.oneTodo)).
  { vm_compute. eauto. }
  pose proof (updateTodo_overlay (H := Sample.epoch) Sample.oneTodo
                Sample.renameArg 2000 Hi) as Hov.
  simpl in Hov.
  destruct Hov as (_ & _ & _ & _ & _ & Htitle & Hdesc & _).
  split; [by apply Htitle | by apply Hdesc].
Defined.

(** C5, counterexample to the claim as stated: the request [TodoItem] builds
    when the description box was emptied has the key [description] present,
    holding [undefined]; the optimistic entity keeps the baseline's
    description instead of taking the absent value. *)
Lemma updateTodo_undefined_keeps_baseline :
  let d := todoData Sample.emptiedArg in
  let b := originalTodo Sample.emptiedArg in
  let v := updateTodo_updatedTodo (H := Sample.epoch) Sample.emptiedArg 2000 in
  Js.present (UpdateTodoRequest.description d) = true
  ∧ Todo.description v ≠ Js.read (UpdateTodoRequest.description d)
  ∧ Todo.description v = Todo.description b.
Proof. simpl. by split_and!. Qed.

(** ** [Array.prototype.sort] with a consistent comparator *)

Section Sorting.
Context {A : Type} (compareFn : A → A → Z) (R : relation A) (ok : A → Prop).
Hypothesis compare_le : ∀ x y, ok x → ok y → compareFn x y ≤ 0 → R x y.
Hypothesis compare_gt : ∀ x y, ok x → ok y → ¬ compareFn x y ≤ 0 → R y x.
Hypothesis R_trans : ∀ x y z, ok x → ok y → ok z → R x y → R y z → R x z.

Lemma insert_by_Permutation x l : Js.insert_by compareFn x l ≡ₚ x :: l.
Proof.
  induction l as [|y l IH]; simpl; [done|].
  case_bool_decide; [done|]. rewrite IH. apply Permutation_swap.
Qed.

Lemma sort_by_Permutation l : Js.sort_by compareFn l ≡ₚ l.
Proof.
  induction l as [|x l IH]; simpl; [done|].
  fold (Js.sort_by compareFn l). by rewrite insert_by_Permutation, IH.
Qed.

Lemma insert_by_sorted x l :
  ok x → Forall ok l →
  StronglySorted R l → StronglySorted R (Js.insert_by compareFn x l).
Proof.
  intros Hx Hok Hsorted.
  induction Hsorted as [|y l Hl IH Hy]; simpl.
  - repeat constructor.
  - apply Forall_cons in Hok as [Hoky Hokl].
    case_bool_decide as Hxy.
    + constructor; [by constructor|].
      constructor; [by apply compare_le|].
      rewrite Forall_forall in Hy, Hokl. apply Forall_forall. intros z Hz.
      apply (R_trans x y z); auto.
    + constructor; [by apply IH|].
      rewrite insert_by_Permutation. constructor; [|done].
      by apply compare_gt.
Qed.

Lemma sort_by_ok l : Forall ok l → Forall ok (Js.sort_by compareFn l).
Proof. intros Hok. by rewrite sort_by_Permutation. Qed.

Lemma sort_by_sorted l :
  Forall ok l → StronglySorted R (Js.sort_by compareFn l).
Proof.
  induction l as [|x l IH]; simpl; [constructor|].
  intros [Hx Hl]%Forall_cons. fold (Js.sort_by compareFn l).
  apply insert_by_sorted; [done|by apply sort_by_ok|by apply IH].
Qed.

(** Stability: todos that compare equal to one another keep their order. *)
Lemma insert_by_stable (P : A → bool) x l :
  (∀ y, P x = true → P y = true → compareFn x y ≤ 0) →
  List.filter P (Js.insert_by compareFn x l) = List.filter P (x :: l).
Proof.
  intros Heq. induction l as [|y l IH]; simpl; [done|].
  case_bool_decide as Hxy; [done|]. simpl in *.
  destruct (P x) eqn:Hx, (P y) eqn:Hy; rewrite IH; try done.
  destruct Hxy. by apply Heq.
Qed.

Lemma sort_by_stable (P : A → bool) l :
  (∀ x y, P x = true → P y = true → compareFn x y ≤ 0) →
  List.filter P (Js.sort_by compareFn l) = List.filter P l.
Proof.
  intros Heq. induction l as [|x l IH]; simpl; [done|].
  fold (Js.sort_by compareFn l).
  rewrite insert_by_stable by (intros y; apply Heq). simpl. by rewrite IH.
Qed.

End Sorting.

(** On todos whose dates are valid, the three comparators are consistent
    with the orders they stand for. *)

Lemma rankLe_priorityOrder p q :
  Spec.rankLe p q ↔ Utils.priorityOrder p ≤ Utils.priorityOrder q.
Proof. destruct p, q; simpl; split; intros; try done; lia. Qed.

Ltac by_dates a b :=
  unfold Js.sortCompare, Utils.comparator, Utils.compare_created,
    Utils.compare_priority, Utils.compare_dueDate, Spec.sortable,
    Spec.before;
  try rewrite !rankLe_priorityOrder;
  destruct (Todo.createdAt a) as [?|], (Todo.createdAt b) as [?|],
    (Todo.dueDate a) as [[?|]|], (Todo.dueDate b) as [[?|]|];
  simpl; intros; try done; try lia.

Lemma comparator_le sort a b :
  Spec.sortable sort a → Spec.sortable sort b →
  Js.sortCompare (Utils.comparator sort) a b ≤ 0 → Spec.before sort a b.
Proof. destruct sort; by_dates a b. Qed.

Lemma comparator_gt sort a b :
  Spec.sortable sort a → Spec.sortable sort b →
  ¬ Js.sortCompare (Utils.comparator sort) a b ≤ 0 → Spec.before sort b a.
Proof. destruct sort; by_dates a b. Qed.

Lemma before_trans sort a b c :
  Spec.before sort a b → Spec.before sort b c → Spec.before sort a c.
Proof.
  destruct sort; simpl.
  - destruct (Todo.createdAt a), (Todo.createdAt b), (Todo.createdAt c);
      try done; lia.
  - rewrite !rankLe_priorityOrder. lia.
  - destruct (Todo.dueDate a) as [[?|]|], (Todo.dueDate b) as [[?|]|],
      (Todo.dueDate c) as [[?|]|]; try done; lia.
Qed.

(** Any two todos with valid dates stand one before the other: the orders
    are total. *)
Lemma before_total sort a b :
  Spec.sortable sort a → Spec.sortable sort b →
  Spec.before sort a b ∨ Spec.before sort b a.
Proof.
  intros Ha Hb.
  destruct (decide (Js.sortCompare (Utils.comparator sort) a b ≤ 0)).
  - left. by apply comparator_le.
  - right. by apply comparator_gt.
Qed.

(** ** The view projection *)

Section Arrays.
Context {A : Type}.
Implicit Types (h : gmap Js.ref (list A)) (l : list A) (r : Js.ref).

Lemma alloc_fresh l h : (Js.alloc l h).1 ∉ dom h.
Proof. apply is_fresh. Qed.

Lemma alloc_elements l h :
  Js.elements_of (Js.alloc l h).2 (Js.alloc l h).1 = l.
Proof. unfold Js.elements_of, Js.alloc. simpl. apply lookup_total_insert_eq. Qed.

Lemma alloc_subseteq l h : h ⊆ (Js.alloc l h).2.
Proof.
  unfold Js.alloc. simpl. apply insert_subseteq.
  apply not_elem_of_dom, is_fresh.
Qed.

Lemma alloc_dom l h : dom h ⊆ dom (Js.alloc l h).2.
Proof. apply subseteq_dom, alloc_subseteq. Qed.

End Arrays.

Lemma filterTodos_spec todos filter (h : gmap Js.ref (list Todo.t)) :
  let filtered := (Utils.filterTodos todos filter h).1 in
  let h' := (Utils.filterTodos todos filter h).2 in
  h ⊆ h'
  ∧ Js.elements_of h' filtered
    = List.filter (Spec.passes filter) (Js.elements_of h todos).
Proof.
  destruct filter; simpl.
  - split; [done|]. induction (Js.elements_of h todos); simpl; congruence.
  - split; [apply alloc_subseteq|]. unfold Js.Array_filter.
    apply alloc_elements.
  - split; [apply alloc_subseteq|]. unfold Js.Array_filter.
    apply alloc_elements.
Qed.

Lemma sortTodos_eq todos sort (h : gmap Js.ref (list Todo.t)) :
  Utils.sortTodos todos sort h
  = (fresh (dom h),
     <[fresh (dom h) :=
         Js.sort_by (Js.sortCompare (Utils.comparator sort))
           (Js.elements_of h todos)]> h).
Proof.
  unfold Utils.sortTodos, Js.Array_spread, Js.alloc, Js.Array_sort.
  assert (Js.elements_of (<[fresh (dom h) := Js.elements_of h todos]> h)
            (fresh (dom h)) = Js.elements_of h todos) as Hel
    by apply lookup_total_insert_eq.
  destruct sort; simpl; rewrite Hel; f_equal; apply insert_insert_eq.
Qed.

(** What [getFilteredAndSortedTodos] returns: a new array, allocated after
    the one [filterTodos] may have allocated, holding the sorted filtered
    elements. *)
Lemma getFilteredAndSortedTodos_eq todos filter sort
    (h : gmap Js.ref (list Todo.t)) :
  let h1 := (Utils.filterTodos todos filter h).2 in
  Utils.getFilteredAndSortedTodos todos filter sort h
  = (fresh (dom h1),
     <[fresh (dom h1) :=
         Js.sort_by (Js.sortCompare (Utils.comparator sort))
           (List.filter (Spec.passes filter) (Js.elements_of h todos))]> h1).
Proof.
  unfold Utils.getFilteredAndSortedTodos.
  pose proof (filterTodos_spec todos filter h) as [_ Hel].
  destruct (Utils.filterTodos todos filter h) as [filtered h1]; simpl in *.
  by rewrite sortTodos_eq, Hel.
Qed.

Lemma projection_eq (l : list Todo.t) filter sort :
  View.projection l filter sort
  = Js.sort_by (Js.sortCompare (Utils.comparator sort))
      (List.filter (Spec.passes filter) l).
Proof.
  unfold View.projection.
  pose proof (alloc_elements l (∅ : gmap Js.ref (list Todo.t))) as Hl.
  destruct (Js.alloc l ∅) as [todos h]. simpl in Hl.
  rewrite getFilteredAndSortedTodos_eq. simpl.
  unfold Js.elements_of at 1. rewrite lookup_total_insert_eq. by rewrite Hl.
Qed.

Lemma Forall_filter_bool {A} (P : A → Prop) (p : A → bool) (l : list A) :
  Forall P l → Forall P (List.filter p l).
Proof.
  induction 1 as [|x l Hx _ IH]; simpl; [done|].
  destruct (p x); [by constructor|done].
Qed.

(** C7 (as the code has it).  For every array of todos and every filter and
    sort selection, [getFilteredAndSortedTodos] returns an array that did
    not exist before the call, leaves every existing array (its argument
    included) as it was, and the returned array holds exactly the todos of
    the argument that pass the filter ([all]: every todo, [active]: not
    completed, [completed]: completed), its elements being a function of
    the argument's elements and the two selections alone.  When the dates
    the selected order reads are valid dates, the returned array is
    arranged in that order: creation time descending, priority rank
    descending, or due date ascending with the todos lacking a due date
    last. *)
Theorem getFilteredAndSortedTodos_projection
    (h : gmap Js.ref (list Todo.t)) (todos : Js.ref)
    (filter : FilterType) (sort : SortType) :
  let result := (Utils.getFilteredAndSortedTodos todos filter sort h).1 in
  let h' := (Utils.getFilteredAndSortedTodos todos filter sort h).2 in
  (result ∉ dom h)
  ∧ h ⊆ h'
  ∧ Js.elements_of h' result
    ≡ₚ List.filter (Spec.passes filter) (Js.elements_of h todos)
  ∧ (Forall (Spec.sortable sort) (Js.elements_of h todos) →
     StronglySorted (Spec.before sort) (Js.elements_of h' result))
  ∧ Js.elements_of h' result
    = Js.sort_by (Js.sortCompare (Utils.comparator sort))
        (List.filter (Spec.passes filter) (Js.elements_of h todos)).
Proof.
  rewrite getFilteredAndSortedTodos_eq.
  pose proof (filterTodos_spec todos filter h) as [Hsub _].
  set (h1 := (Utils.filterTodos todos filter h).2) in *. simpl.
  assert (Hfresh : fresh (dom h1) ∉ dom h1) by apply is_fresh.
  set (sorted := Js.sort_by (Js.sortCompare (Utils.comparator sort))
                   (List.filter (Spec.passes filter)
                      (Js.elements_of h todos))).
  assert (Hres : Js.elements_of (<[fresh (dom h1) := sorted]> h1)
                   (fresh (dom h1)) = sorted)
    by apply lookup_total_insert_eq.
  rewrite Hres.
  split_and!.
  - intros Hin. apply Hfresh. by apply (subseteq_dom _ _ Hsub).
  - etrans; [exact Hsub|]. apply insert_subseteq.
    by apply not_elem_of_dom.
  - apply sort_by_Permutation.
  - intros Hvalid.
    apply (sort_by_sorted _ _ (Spec.sortable sort) (comparator_le sort)
             (comparator_gt sort)).
    + intros x y z _ _ _. apply before_trans.
    + by apply Forall_filter_bool.
  - reflexivity.
Qed.

(** C7, witness of [getFilteredAndSortedTodos_projection]: the sample list,
    whose dates are valid, by due date. *)
Lemma getFilteredAndSortedTodos_projection_witness :
  let h : gmap Js.ref (list Todo.t) := {[ 1%positive := Sample.threeTodos ]} in
  StronglySorted (Spec.before SortDueDate)
    (Js.elements_of
       (Utils.getFilteredAndSortedTodos 1%positive FilterAll SortDueDate h).2
       (Utils.getFilteredAndSortedTodos 1%positive FilterAll SortDueDate h).1).
Proof.
  intros h.
  destruct (getFilteredAndSortedTodos_projection h 1%positive FilterAll
              SortDueDate) as (_ & _ & _ & Hsorted & _).
  apply Hsorted.
  repeat apply Forall_cons_2; try apply Forall_nil_2; discriminate.
Defined.

(** C7, counterexample to the claim as stated: a list in which the second
    todo has the Invalid Date as creation time comes back from the
    projection by creation time as it went in, with the todo created at
    1500 after the one created at 1000. *)
Lemma getFilteredAndSortedTodos_invalid_date :
  let result :=
    View.projection [Sample.buyMilk; Sample.undated; Sample.walkDog]
      FilterAll SortCreated in
  result = [Sample.buyMilk; Sample.undated; Sample.walkDog]
  ∧ ¬ Spec.before SortCreated Sample.buyMilk Sample.walkDog
  ∧ ¬ StronglySorted (Spec.before SortCreated) result.
Proof.
  intros result.
  assert (Hres : result = [Sample.buyMilk; Sample.undated; Sample.walkDog]).
  { subst result. rewrite projection_eq. reflexivity. }
  rewrite Hres. split_and!; [done| |].
  - simpl. lia.
  - intros Hsorted. apply StronglySorted_inv in Hsorted as [_ Hfirst].
    apply Forall_cons in Hfirst as [Hundated _]. exact Hundated.
Qed.

(** ** Deleting a todo *)


(** ** Actions that leave an identifier alone *)

Section LeftAlone.
Implicit Types (l : list Todo.t) (i j k : string) (e t : Todo.t).

Lemma withId_insert l i n e t :
  l !! n = Some t → Todo.id t ≠ i → Todo.id e ≠ i →
  Spec.withId i (<[n := e]> l) = Spec.withId i l.
Proof.
  intros Hn Ht He. revert n Hn. unfold Spec.withId.
  induction l as [|x l IH]; intros [|n] Hn; simplify_eq/=.
  - by rewrite !bool_decide_eq_false_2.
  - by rewrite (IH n Hn).
Qed.

Lemma withId_replaceById l i j e :
  j ≠ i → Todo.id e ≠ i →
  Spec.withId i (replaceById j e l) = Spec.withId i l.
Proof.
  intros Hj He. unfold replaceById.
  destruct (indexOfId j l) as [n|] eqn:Hn; [|done].
  apply indexOfId_Some in Hn as (t & Hn & Ht & _).
  apply (withId_insert l i n e t); congruence.
Qed.

Lemma withId_others l i k :
  k ≠ i →
  Spec.withId i (List.filter (λ todo, bool_decide (Todo.id todo ≠ k)) l)
  = Spec.withId i l.
Proof.
  intros Hk. unfold Spec.withId. induction l as [|x l IH]; simpl; [done|].
  destruct (decide (Todo.id x = k)) as [Hx|Hx].
  - rewrite bool_decide_eq_false_2 by (intros Hne; by apply Hne).
    rewrite (bool_decide_eq_false_2 (Todo.id x = i)) by congruence. exact IH.
  - rewrite bool_decide_eq_true_2 by done. simpl. by rewrite IH.
Qed.

Lemma withId_nil l i :
  Spec.withId i l = [] ↔ list_find (λ t, Todo.id t = i) l = None.
Proof.
  rewrite list_find_None. unfold Spec.withId.
  induction l as [|x l IH]; simpl; [by split|].
  rewrite Forall_cons. destruct (decide (Todo.id x = i)) as [Hx|Hx].
  - rewrite bool_decide_eq_true_2 by done. split; [done | by intros [? _]].
  - rewrite bool_decide_eq_false_2 by done. rewrite IH. by split; [|intros [_ ?]].
Qed.

Lemma withId_single l i t :
  Spec.withId i l = [t] →
  ∃ n, indexOfId i l = Some n ∧ l !! n = Some t
       ∧ ∀ e, Todo.id e ≠ i → Spec.withId i (<[n := e]> l) = [].
Proof.
  unfold Spec.withId, indexOfId, Js.findIndex.
  induction l as [|x l IH]; simpl; [done|].
  destruct (decide (Todo.id x = i)) as [Hx|Hx].
  - rewrite bool_decide_eq_true_2 by done. intros [= -> Hrest].
    exists 0%nat. split_and!; [done..|]. intros e He. simpl.
    by rewrite bool_decide_eq_false_2.
  - rewrite bool_decide_eq_false_2 by done. intros Hrest.
    destruct (IH Hrest) as (n & Hn & Hlook & Hgone).
    apply fmap_Some in Hn as ([n' t'] & Hfind & ->).
    exists (S n'). rewrite Hfind. split_and!; [done..|].
    intros e He. simpl. rewrite bool_decide_eq_false_2 by done.
    by apply Hgone.
Qed.

Lemma reducer_leavesAlone (state : TodoState) (action : Action) i :
  Spec.leavesAlone i action →
  optimisticOperations (reducer state action) !! i
  = optimisticOperations state !! i
  ∧ Spec.withId i (todos (reducer state action))
    = Spec.withId i (todos state).
Proof.
  destruct action; simpl; try done; intros Halone.
  - split; [by apply lookup_assign_ne|].
    unfold Spec.withId. rewrite List.filter_app. simpl.
    rewrite bool_decide_eq_false_2 by done. apply app_nil_r.
  - split.
    + unfold updateTodoOptimistic.
      destruct (indexOfId _ _); simpl; [|done]. by apply lookup_assign_ne.
    + rewrite todos_updateTodoOptimistic. by apply withId_replaceById.
  - split; [by apply lookup_assign_ne|done].
  - split; [by apply lookup_delete_ne|done].
  - split; [by apply lookup_delete_ne|by apply withId_others].
  - destruct Halone as [Htemp Hnew].
    split; [by apply lookup_delete_ne|by apply withId_replaceById].
  - split; [by apply lookup_delete_ne|by apply withId_replaceById].
  - split; [by apply lookup_delete_ne|by apply withId_others].
  - split; [by apply lookup_delete_ne|by apply withId_replaceById].
Qed.

Lemma dispatch_leavesAlone (actions : list Action) (state : TodoState) i :
  Forall (Spec.leavesAlone i) actions →
  optimisticOperations (dispatch actions state) !! i
  = optimisticOperations state !! i
  ∧ Spec.withId i (todos (dispatch actions state))
    = Spec.withId i (todos state).
Proof.
  unfold dispatch. intros Hall. revert state.
  induction Hall as [|action actions Halone _ IH]; intros state; [done|].
  simpl. destruct (IH (reducer state action)) as [-> ->].
  by apply reducer_leavesAlone.
Qed.

End LeftAlone.






(** ** Creating a todo, from submission to confirmation *)

Section CreateConfirmed.
Context `{DateParser}.

(** C3 (as the code has it).  For a create with a temporary identifier
    that is not in the mirror: right after submission the mirror ends with
    an entity that has the temporary identifier and [completed = false],
    recorded as [creating].  As long as the actions dispatched before the
    remote call settles leave the temporary identifier alone, no fetched
    list among them, the entity stays in the mirror, once; and when the
    remote create then succeeds with an entity of another identifier, that
    entity takes the place of the temporary one, the record of the
    temporary identifier is cleared, and no entry with the temporary
    identifier is left: with nothing dispatched in between, the mirror is
    the one before the create with the server's entity at its end. *)
Theorem createTodo_confirmed
    (state : TodoState) (todoData : CreateTodoRequest.t) (tempId : string)
    (now : Date) (newTodo : Todo.t) (between : list Action) :
  entry tempId state = None →
  tempId ≠ "__proto__" →
  Todo.id newTodo ≠ tempId →
  Forall (Spec.leavesAlone tempId) between →
  let shown := createTodo_optimisticTodo todoData tempId now in
  let submitted := dispatch (createTodo_submit todoData tempId now) state in
  let pending := dispatch between submitted in
  let settled :=
    dispatch (createTodo_settle todoData tempId (Js.Resolved newTodo))
      pending in
  (todos submitted = todos state ++ [shown]
   ∧ Todo.id shown = tempId ∧ Todo.completed shown = false
   ∧ optimisticOperations submitted !! tempId = Some creating)
  ∧ (Spec.withId tempId (todos pending) = [shown]
     ∧ optimisticOperations pending !! tempId = Some creating)
  ∧ (∃ n, todos pending !! n = Some shown
          ∧ todos settled = <[n := newTodo]> (todos pending))
  ∧ optimisticOperations settled !! tempId = None
  ∧ entry tempId settled = None
  ∧ (between = [] → todos settled = todos state ++ [newTodo]).
Proof.
  intros Hfresh%entry_None_find Hkey Hid Halone shown submitted pending
    settled.
  assert (Hsub : todos submitted = todos state ++ [shown]) by reflexivity.
  assert (Hmark : optimisticOperations submitted !! tempId = Some creating).
  { subst submitted. simpl. by apply lookup_assign_eq. }
  destruct (dispatch_leavesAlone between submitted tempId Halone)
    as [Hops Hwith].
  assert (Hone : Spec.withId tempId (todos pending) = [shown]).
  { subst pending. rewrite Hwith, Hsub. unfold Spec.withId.
    rewrite List.filter_app. apply withId_nil in Hfresh.
    unfold Spec.withId in Hfresh. rewrite Hfresh. simpl.
    by rewrite bool_decide_eq_true_2. }
  destruct (withId_single _ _ _ Hone) as (n & Hn & Hlook & Hgone).
  assert (Hset : todos settled = <[n := newTodo]> (todos pending)).
  { change (todos settled) with (replaceById tempId newTodo (todos pending)).
    unfold replaceById. by rewrite Hn. }
  split_and!; try done.
  - subst pending. by rewrite Hops.
  - by exists n.
  - apply lookup_delete_eq.
  - apply entry_None_find, withId_nil. rewrite Hset. by apply Hgone.
  - intros ->.
    change (todos settled)
      with (replaceById tempId newTodo (todos state ++ [shown])).
    unfold replaceById, indexOfId, Js.findIndex.
    rewrite list_find_app_r by done. simpl.
    rewrite decide_True by done. simpl.
    rewrite insert_app_r_alt by (simpl; lia). by rewrite Nat.sub_diag.
Qed.

End CreateConfirmed.

(** C3, witness of [createTodo_confirmed]: the scenario of the sample
    request, confirmed by the server as todo 42 after the sample todo was
    marked for deletion meanwhile. *)
Lemma createTodo_confirmed_witness :
  let pending :=
    dispatch [MarkTodoAsDeleting "1"]
      (dispatch
         (createTodo_submit (H := Sample.epoch) Sample.milkRequest "temp-1"
            2000)
         Sample.oneTodo) in
  let settled :=
    dispatch
      (createTodo_settle Sample.milkRequest "temp-1"
         (Js.Resolved Sample.created42))
      pending in
  optimisticOperations settled !! "temp-1" = None
  ∧ entry "temp-1" settled = None.
Proof.
  assert (Hfresh : entry "temp-1" Sample.oneTodo = None) by reflexivity.
  assert (Hkey : "temp-1" ≠ "__proto__") by discriminate.
  assert (Hid : Todo.id Sample.created42 ≠ "temp-1") by discriminate.
  assert (Halone : Forall (Spec.leavesAlone "temp-1")
                     [MarkTodoAsDeleting "1"]).
  { repeat constructor. discriminate. }
  destruct (createTodo_confirmed (H := Sample.epoch) Sample.oneTodo
              Sample.milkRequest "temp-1" 2000 Sample.created42
              [MarkTodoAsDeleting "1"] Hfresh Hkey Hid Halone)
    as (_ & _ & _ & Hops & Hentry & _).
  by split.
Defined.

(** C3, counterexample to the claim as stated: the list is fetched while
    the create is in flight, and when the remote create succeeds the
    server's entity does not come into the mirror: no entity for that
    create remains. *)
Lemma createTodo_confirmed_after_fetch :
  let fetched :=
    dispatch (fetchTodos_settle (Js.Resolved Sample.threeTodos) None)
      (dispatch fetchTodos_submit
         (dispatch
            (createTodo_submit (H := Sample.epoch) Sample.milkRequest "temp-1"
               2000)
            Sample.oneTodo)) in
  let settled :=
    dispatch
      (createTodo_settle Sample.milkRequest "temp-1"
         (Js.Resolved Sample.created42))
      fetched in
  todos settled = Sample.threeTodos
  ∧ entry (Todo.id Sample.created42) settled = None
  ∧ Sample.created42 ∉ todos settled.
Proof.
  simpl. split_and!; [reflexivity..|].
  apply (bool_decide_unpack _). by vm_compute.
Qed.

(** The key [__proto__] takes no pending record: marking it for deletion,
    or toggling a todo that has it as identifier, records nothing, where
    another identifier is recorded. *)
Example proto_key_not_recorded :
  let proto :=
    {| Todo.id := "__proto__"; Todo.title := "Buy milk";
       Todo.description := None; Todo.completed := false;
       Todo.priority := low; Todo.dueDate := None;
       Todo.createdAt := 1000; Todo.updatedAt := 1000 |} in
  optimisticOperations
    (dispatch (deleteTodo_submit "__proto__") Sample.oneTodo) !! "__proto__"
  = None
  ∧ optimisticOperations
      (dispatch (toggleTodoComplete_submit proto 2000)
         (set_todos [proto] Sample.oneTodo)) !! "__proto__"
    = None
  ∧ optimisticOperations
      (dispatch (deleteTodo_submit "1") Sample.oneTodo) !! "1"
    = Some deleting.
Proof. by vm_compute. Qed.

(** The temporary identifiers [generateTempId] draws are not the key
    [__proto__]. *)
Lemma generateTempId_key dateNow random :
  generateTempId dateNow random ≠ "__proto__".
Proof. discriminate. Qed.

(** C9, witness of [updateTodoOptimistic_unknown_id]: the sample mirror has
    no todo 42. *)
Lemma updateTodoOptimistic_unknown_id_witness :
  reducer Sample.oneTodo (UpdateTodoOptimistic Sample.created42)
  = Sample.oneTodo.
Proof.
  apply (updateTodoOptimistic_unknown_id Sample.oneTodo Sample.created42).
  reflexivity.
Defined.

(** ** The backend's [update] *)

Section ServiceUpdate.
Context `{DateParser}.

(** C10.  [TodoService.update(id, dto)] throws when no stored todo has the
    identifier; otherwise it changes the first stored todo with that
    identifier and nothing else: every other position of the collection
    holds what it held, the length and the order of the identifiers are
    unchanged, the counter is unchanged, and the changed todo keeps its
    [id] and [createdAt], takes the call time as [updatedAt], and keeps
    every field that reads [undefined] in the dto. *)
Theorem update_changes_only_target
    (this : TodoService.t) (id : string)
    (updateTodoDto : TodoService.UpdateTodoDto) (now : Date) :
  match TodoService.update id updateTodoDto now this with
  | inl _ => Forall (λ t, Todo.id t ≠ id) (TodoService.todos this)
  | inr (todo', this') =>
      ∃ (index : nat) (todo : Todo.t),
        TodoService.todos this !! index = Some todo
        ∧ Todo.id todo = id
        ∧ TodoService.todos this' !! index = Some todo'
        ∧ (∀ j, j ≠ index →
             TodoService.todos this' !! j = TodoService.todos this !! j)
        ∧ length (TodoService.todos this') = length (TodoService.todos this)
        ∧ Todo.id <$> TodoService.todos this'
          = Todo.id <$> TodoService.todos this
        ∧ TodoService.idCounter this' = TodoService.idCounter this
        ∧ Todo.id todo' = Todo.id todo
        ∧ Todo.createdAt todo' = Todo.createdAt todo
        ∧ Todo.updatedAt todo' = now
        ∧ (Js.read (UpdateTodoRequest.title updateTodoDto) = None →
           Todo.title todo' = Todo.title todo)
        ∧ (Js.read (UpdateTodoRequest.description updateTodoDto) = None →
           Todo.description todo' = Todo.description todo)
        ∧ (Js.read (UpdateTodoRequest.completed updateTodoDto) = None →
           Todo.completed todo' = Todo.completed todo)
        ∧ (Js.read (UpdateTodoRequest.priority updateTodoDto) = None →
           Todo.priority todo' = Todo.priority todo)
        ∧ (Js.read (UpdateTodoRequest.dueDate updateTodoDto) = None →
           Todo.dueDate todo' = Todo.dueDate todo)
  end.
Proof.
  unfold TodoService.update, TodoService.findOne.
  destruct (list_find (λ t, Todo.id t = id) (TodoService.todos this))
    as [[index todo]|] eqn:Hfind.
  - apply list_find_Some in Hfind as (Hlookup & Hid & _).
    exists index, todo. simpl.
    split_and!; try done.
    + apply list_lookup_insert_eq. by eapply lookup_lt_Some.
    + intros j Hj. by apply list_lookup_insert_ne.
    + apply length_insert.
    + rewrite list_fmap_insert. apply list_insert_id.
      by rewrite list_lookup_fmap, Hlookup.
    + by intros ->.
    + by intros ->.
    + by intros ->.
    + by intros ->.
    + by intros ->.
  - by apply list_find_None in Hfind.
Qed.

End ServiceUpdate.

(** ** The operations on the sample data *)

Example projection_by_created :
  View.projection Sample.threeTodos FilterAll SortCreated
  = [Sample.walkDog; Sample.buyMilk; Sample.payRent].
Proof. vm_compute. reflexivity. Qed.

Example projection_by_priority :
  View.projection Sample.threeTodos FilterAll SortPriority
  = [Sample.walkDog; Sample.payRent; Sample.buyMilk].
Proof. vm_compute. reflexivity. Qed.

Example projection_by_dueDate :
  View.projection Sample.threeTodos FilterAll SortDueDate
  = [Sample.payRent; Sample.walkDog; Sample.buyMilk].
Proof. vm_compute. reflexivity. Qed.

Example projection_active :
  View.projection Sample.threeTodos FilterActive SortDueDate
  = [Sample.payRent; Sample.buyMilk]
  ∧ View.projection Sample.threeTodos FilterCompleted SortDueDate
    = [Sample.walkDog].
Proof. vm_compute. split; reflexivity. Qed.

(** Toggling the sample todo with a failing remote call: the entry is not
    completed after the rollback, and [error] holds the failure text. *)
Example toggle_failure :
  let settled :=
    dispatch
      (toggleTodoComplete_settle Sample.buyMilk
         (Sample.failed "Failed to update todo"))
      (dispatch (toggleTodoComplete_submit Sample.buyMilk 2000)
         Sample.oneTodo) in
  (Todo.completed <$> entry "1" settled) = Some false
  ∧ error settled = Some "Failed to update todo".
Proof. vm_compute. split; reflexivity. Qed.

Example service_update :
  TodoService.update (H := Sample.epoch) "2" Sample.rename 9000
    (TodoService.mk Sample.threeTodos 4)
  = inr
      ({| Todo.id := "2"; Todo.title := "Buy oat milk";
          Todo.description := None; Todo.completed := true;
          Todo.priority := high; Todo.dueDate := Some (Time 5000);
          Todo.createdAt := 1500; Todo.updatedAt := 9000 |},
       TodoService.mk
         [Sample.buyMilk;
          {| Todo.id := "2"; Todo.title := "Buy oat milk";
             Todo.description := None; Todo.completed := true;
             Todo.priority := high; Todo.dueDate := Some (Time 5000);
             Todo.createdAt := 1500; Todo.updatedAt := 9000 |};
          Sample.payRent]
         4).
Proof. vm_compute. reflexivity. Qed.

Example service_update_unknown :
  TodoService.update (H := Sample.epoch) "9" Sample.rename 9000
    (TodoService.mk Sample.threeTodos 4)
  = inl (TodoService.NotFound "Todo with ID 9 not found").
Proof. vm_compute. reflexivity. Qed.

(** * Further properties of the backend service *)

Section Service.
Context `{DateParser}.
Implicit Types (this : TodoService.t) (l : list Todo.t).

Lemma issuedIds_create this createTodoDto now :
  Spec.issuedIds this →
  TodoService.idCounter this < Js.two53 →
  Spec.issuedIds (TodoService.create createTodoDto now this).2.
Proof.
  intros (Hpos & Hnodup & Hall) Hbound. unfold Spec.issuedIds. simpl.
  unfold Js.incremented. rewrite bool_decide_eq_true_2 by done.
  split_and!.
  - lia.
  - rewrite fmap_app. simpl. apply NoDup_app. split_and!; [done| |].
    + intros i Hi ->%list_elem_of_singleton.
      apply list_elem_of_fmap in Hi as (todo & Hid & Hin).
      rewrite Forall_forall in Hall.
      destruct (Hall todo Hin) as (n & Hn & Hpretty).
      rewrite Hpretty in Hid. apply (inj pretty) in Hid. lia.
    + apply NoDup_singleton.
  - apply Forall_app. split.
    + eapply Forall_impl; [exact Hall|]. simpl.
      intros todo (n & Hn & Hid). exists n. split; [lia | done].
    + apply Forall_singleton. exists (TodoService.idCounter this).
      split; [lia | done].
Qed.

Lemma issuedIds_update this id updateTodoDto now todo' this' :
  Spec.issuedIds this →
  TodoService.update id updateTodoDto now this = inr (todo', this') →
  Spec.issuedIds this'.
Proof.
  intros (Hpos & Hnodup & Hall). unfold TodoService.update, TodoService.findOne.
  destruct (list_find _ _) as [[index todo]|] eqn:Hfind; [|done].
  intros [= <- <-]. apply list_find_Some in Hfind as (Hlookup & Hid & _).
  unfold Spec.issuedIds. simpl. split_and!; [done| |].
  - rewrite list_fmap_insert, list_insert_id; [done|].
    by rewrite list_lookup_fmap, Hlookup.
  - apply Forall_insert; [done|]. simpl.
    by apply (Forall_lookup_1 _ _ _ _ Hall Hlookup).
Qed.

Lemma issuedIds_remove this id this' :
  Spec.issuedIds this →
  TodoService.remove id this = inr this' →
  Spec.issuedIds this'.
Proof.
  intros (Hpos & Hnodup & Hall). unfold TodoService.remove.
  destruct (Js.findIndex _ _) as [index|]; [|done].
  intros [= <-]. unfold Spec.issuedIds. simpl. split_and!; [done| |].
  - eapply sublist_NoDup; [exact Hnodup|].
    apply fmap_sublist, sublist_delete.
  - by apply Forall_delete.
Qed.

(** X1.  While the counter is below 2^53, where [idCounter++] stops
    counting, every call of [create], [update] or [remove] keeps the
    backend's identifiers distinct and of the form of a numeral below the
    counter. *)
Theorem service_keeps_issuedIds this (call : Spec.Call) :
  Spec.issuedIds this →
  TodoService.idCounter this < Js.two53 →
  Spec.issuedIds (Spec.after this call).
Proof.
  intros Hwf Hbound. destruct call as [dto now|id dto now|id]; simpl.
  - by apply issuedIds_create.
  - destruct (TodoService.update id dto now this) as [e|[todo' this']] eqn:Hu;
      [done|]. by eapply issuedIds_update.
  - destruct (TodoService.remove id this) as [e|this'] eqn:Hr; [done|].
    by eapply issuedIds_remove.
Qed.

Lemma idCounter_after this (call : Spec.Call) :
  TodoService.idCounter this ≤ TodoService.idCounter (Spec.after this call).
Proof.
  destruct call as [dto now|id dto now|id]; simpl.
  - unfold Js.incremented. case_bool_decide; lia.
  - unfold TodoService.update.
    destruct (TodoService.findOne id this) as [e|[index todo]]; simpl; lia.
  - unfold TodoService.remove.
    destruct (Js.findIndex _ _); simpl; lia.
Qed.

Lemma idCounter_afterAll (calls : list Spec.Call) this :
  TodoService.idCounter this
  ≤ TodoService.idCounter (Spec.afterAll calls this).
Proof.
  unfold Spec.afterAll. revert this.
  induction calls as [|call calls IH]; intros this; simpl; [lia|].
  etrans; [apply (idCounter_after this call)|]. apply IH.
Qed.

Lemma idCounter_update this id updateTodoDto now :
  TodoService.idCounter
    (Spec.after this (Spec.CallUpdate id updateTodoDto now))
  = TodoService.idCounter this.
Proof.
  simpl. unfold TodoService.update.
  by destruct (TodoService.findOne id this) as [e|[index todo]].
Qed.

Lemma idCounter_remove this id :
  TodoService.idCounter (Spec.after this (Spec.CallRemove id))
  = TodoService.idCounter this.
Proof.
  simpl. unfold TodoService.remove. by destruct (Js.findIndex _ _).
Qed.

Lemma createdIds_fresh (calls : list Spec.Call) this :
  TodoService.idCounter this + Z.of_nat (length calls) ≤ Js.two53 →
  NoDup (Spec.createdIds calls this)
  ∧ Forall (λ i, ∃ n : Z, TodoService.idCounter this ≤ n ∧ i = pretty n)
      (Spec.createdIds calls this).
Proof.
  revert this.
  induction calls as [|call calls IH]; intros this Hbound.
  { split; [apply NoDup_nil_2 | apply Forall_nil_2]. }
  change (length (call :: calls)) with (S (length calls)) in Hbound.
  destruct call as [dto now|id dto now|id].
  - destruct (IH (Spec.after this (Spec.CallCreate dto now))) as [Hnodup Hall].
    { simpl. unfold Js.incremented.
      rewrite bool_decide_eq_true_2 by lia. lia. }
    assert (Hnext : TodoService.idCounter
                      (Spec.after this (Spec.CallCreate dto now))
                    = TodoService.idCounter this + 1).
    { simpl. unfold Js.incremented. rewrite bool_decide_eq_true_2 by lia.
      done. }
    rewrite Hnext in Hall.
    change (Spec.createdIds (Spec.CallCreate dto now :: calls) this)
      with (pretty (TodoService.idCounter this)
            :: Spec.createdIds calls
                 (Spec.after this (Spec.CallCreate dto now))).
    split.
    + apply NoDup_cons. split; [|done]. intros Hin.
      rewrite Forall_forall in Hall.
      destruct (Hall _ Hin) as (n & Hn & Heq).
      apply (inj pretty) in Heq. lia.
    + apply Forall_cons. split; [exists (TodoService.idCounter this); by split|].
      eapply Forall_impl; [exact Hall|]. simpl.
      intros i (n & Hn & ->). exists n. split; [lia|done].
  - change (Spec.createdIds (Spec.CallUpdate id dto now :: calls) this)
      with (Spec.createdIds calls
              (Spec.after this (Spec.CallUpdate id dto now))).
    rewrite <- (idCounter_update this id dto now). apply IH.
    rewrite idCounter_update. lia.
  - change (Spec.createdIds (Spec.CallRemove id :: calls) this)
      with (Spec.createdIds calls (Spec.after this (Spec.CallRemove id))).
    rewrite <- (idCounter_remove this id). apply IH.
    rewrite idCounter_remove. lia.
Qed.

(** X2.  While the counter stays within 2^53, where [idCounter++] stops
    counting, an identifier the backend has given out is not given out
    again: whatever calls of [create], [update] and [remove] are made, also
    ones that remove a todo, the identifiers their [create] calls give out
    differ from one another and from that of every todo stored before. *)
Theorem service_never_reuses_id this (calls : list Spec.Call) :
  Spec.issuedIds this →
  TodoService.idCounter this + Z.of_nat (length calls) ≤ Js.two53 →
  NoDup ((Todo.id <$> TodoService.todos this) ++ Spec.createdIds calls this).
Proof.
  intros (_ & Hnodup & Hall) Hbound.
  destruct (createdIds_fresh calls this Hbound) as [Hfresh Hnew].
  apply NoDup_app. split_and!; [done| |done].
  intros i Hold Hin. rewrite Forall_forall in Hall.
  rewrite Forall_forall in Hnew.
  apply list_elem_of_fmap in Hold as (todo & -> & Htodo).
  destruct (Hall todo Htodo) as (n & Hn & Hid).
  destruct (Hnew _ Hin) as (m & Hm & Heq).
  rewrite Hid in Heq. apply (inj pretty) in Heq. lia.
Qed.


Lemma delete_first_with_id l (i : string) (n : nat) (t : Todo.t) :
  NoDup (Todo.id <$> l) →
  list_find (λ t, Todo.id t = i) l = Some (n, t) →
  delete n l = List.filter (λ todo, bool_decide (Todo.id todo ≠ i)) l.
Proof.
  revert n. induction l as [|x l IH]; intros n Hnodup Hfind; [done|].
  rewrite fmap_cons in Hnodup. apply NoDup_cons in Hnodup as [Hx Hnodup].
  simpl in Hfind. case_decide as Hxi.
  - simplify_eq/=. rewrite bool_decide_eq_false_2 by (intros Hne; by apply Hne).
    symmetry. apply filter_others_all. apply Forall_forall.
    intros y Hy Heq. apply Hx. apply list_elem_of_fmap. by exists y.
  - destruct (list_find _ l) as [[n' t']|] eqn:Hl; simplify_eq/=.
    rewrite bool_decide_eq_true_2 by done. f_equal. by apply IH.
Qed.

(** X4.  With distinct identifiers stored, a [remove] that does not throw
    leaves exactly the todos of the other identifiers, in their order, one
    fewer than before, and [findOne] of the removed identifier throws
    afterwards; a [remove] throws only when no todo has the identifier. *)
Theorem service_remove this (id : string) :
  NoDup (Todo.id <$> TodoService.todos this) →
  match TodoService.remove id this with
  | inl _ => Forall (λ t, Todo.id t ≠ id) (TodoService.todos this)
  | inr this' =>
      TodoService.todos this'
      = List.filter (λ todo, bool_decide (Todo.id todo ≠ id))
          (TodoService.todos this)
      ∧ S (length (TodoService.todos this'))
        = length (TodoService.todos this)
      ∧ TodoService.idCounter this' = TodoService.idCounter this
      ∧ TodoService.findOne id this'
        = inl (TodoService.NotFound
                 ("Todo with ID " ++ id ++ " not found")%string)
  end.
Proof.
  intros Hnodup. unfold TodoService.remove, Js.findIndex.
  destruct (list_find _ _) as [[index todo]|] eqn:Hfind; simpl.
  - pose proof (delete_first_with_id _ _ _ _ Hnodup Hfind) as Hdel.
    apply list_find_Some in Hfind as (Hlookup & _).
    split_and!; [done| |done|].
    + rewrite length_delete by eauto.
      apply lookup_lt_Some in Hlookup. lia.
    + unfold TodoService.findOne. simpl. rewrite Hdel.
      rewrite (proj2 (list_find_None _ _)); [done|].
      apply Forall_forall. intros y Hy%list_elem_of_In.
      apply List.filter_In in Hy as [_ Hy].
      by apply bool_decide_eq_true in Hy.
  - by apply list_find_None in Hfind.
Qed.

End Service.

Lemma issuedIds_sample : Spec.issuedIds Sample.service.
Proof.
  split_and!.
  - done.
  - apply (bool_decide_unpack _). by vm_compute.
  - repeat apply Forall_cons_2; [exists 1|exists 2|exists 3|apply Forall_nil_2];
      (split; [simpl; lia | reflexivity]).
Qed.

(** X1, witness of [service_keeps_issuedIds]. *)
Lemma service_keeps_issuedIds_witness :
  Spec.issuedIds
    (Spec.after (H := Sample.epoch) Sample.service
       (Spec.CallCreate Sample.milkDto 7000)).
Proof.
  apply (service_keeps_issuedIds (H := Sample.epoch) Sample.service
           (Spec.CallCreate Sample.milkDto 7000)).
  - exact issuedIds_sample.
  - reflexivity.
Defined.

(** X2, witness of [service_never_reuses_id]: todo 2 is removed and two
    todos are created, neither with the identifier 2. *)
Lemma service_never_reuses_id_witness :
  NoDup
    ((Todo.id <$> TodoService.todos Sample.service)
     ++ Spec.createdIds (H := Sample.epoch)
          [Spec.CallRemove "2"; Spec.CallCreate Sample.milkDto 7000;
           Spec.CallCreate Sample.milkDto 8000]
          Sample.service).
Proof.
  apply (service_never_reuses_id (H := Sample.epoch) Sample.service
           [Spec.CallRemove "2"; Spec.CallCreate Sample.milkDto 7000;
            Spec.CallCreate Sample.milkDto 8000]).
  - exact issuedIds_sample.
  - by vm_compute.
Defined.

(** At the counter's last value the identifier is given out twice: two
    todos created in a row both get the numeral of 2^53. *)
Example service_counter_stops :
  let this := TodoService.mk [] Js.two53 in
  Spec.createdIds (H := Sample.epoch)
    [Spec.CallCreate Sample.milkDto 7000; Spec.CallCreate Sample.milkDto 8000]
    this
  = ["9007199254740992"; "9007199254740992"].
Proof. vm_compute. reflexivity. Qed.


(** X4, witness of [service_remove]. *)
Lemma service_remove_witness :
  match TodoService.remove "2" Sample.service with
  | inl _ => False
  | inr this' => TodoService.todos this' = [Sample.buyMilk; Sample.payRent]
  end.
Proof.
  assert (Hnodup : NoDup (Todo.id <$> TodoService.todos Sample.service)).
  { apply (bool_decide_unpack _). by vm_compute. }
  pose proof (service_remove Sample.service "2" Hnodup) as Hrem.
  destruct (TodoService.remove "2" Sample.service) as [e|this'] eqn:Hr.
  - discriminate Hr.
  - destruct Hrem as (-> & _). reflexivity.
Defined.

Section ServiceMore.
Context `{DateParser}.
Implicit Types (this : TodoService.t).

Lemma update_found this (id : string)
    (updateTodoDto : TodoService.UpdateTodoDto) (now : Date)
    (todo' : Todo.t) this' :
  TodoService.update id updateTodoDto now this = inr (todo', this') →
  ∃ (index : nat) (todo : Todo.t),
    TodoService.findOne id this = inr (index, todo)
    ∧ TodoService.findOne id this' = inr (index, todo')
    ∧ todo' = TodoService.assign updateTodoDto now todo.
Proof.
  unfold TodoService.update, TodoService.findOne.
  destruct (list_find _ (TodoService.todos this)) as [[index todo]|] eqn:Hfind;
    [|done].
  intros [= <- <-]. exists index, todo. simpl. split; [done|]. split; [|done].
  rewrite (find_insert_first (TodoService.todos this) id index); [done| |].
  - unfold indexOfId, Js.findIndex. by rewrite Hfind.
  - apply list_find_Some in Hfind as (_ & Hid & _). exact Hid.
Qed.

(** X5.  After an [update] that does not throw, [findOne] of the
    identifier finds the todo [update] returned, at the index where the
    todo was found before, stamped with the call's clock reading. *)
Theorem service_update_findOne this (id : string)
    (updateTodoDto : TodoService.UpdateTodoDto) (now : Date)
    (todo' : Todo.t) this' :
  TodoService.update id updateTodoDto now this = inr (todo', this') →
  ∃ (index : nat) (todo : Todo.t),
    TodoService.findOne id this = inr (index, todo)
    ∧ TodoService.findOne id this' = inr (index, todo')
    ∧ Todo.updatedAt todo' = now.
Proof.
  intros (index & todo & Hbefore & Hafter & ->)%update_found.
  by exists index, todo.
Qed.

Lemma assign_twice (updateTodoDto : TodoService.UpdateTodoDto) (now : Date)
    (todo : Todo.t) :
  TodoService.assign updateTodoDto now
    (TodoService.assign updateTodoDto now todo)
  = TodoService.assign updateTodoDto now todo.
Proof.
  unfold TodoService.assign. simpl.
  destruct (Js.read (UpdateTodoRequest.title updateTodoDto)),
    (Js.read (UpdateTodoRequest.description updateTodoDto)),
    (Js.read (UpdateTodoRequest.completed updateTodoDto)),
    (Js.read (UpdateTodoRequest.priority updateTodoDto)),
    (Js.read (UpdateTodoRequest.dueDate updateTodoDto)); reflexivity.
Qed.

(** X6.  Repeating an [update] with the same identifier, the same dto and
    the same clock reading changes nothing more: it returns the same todo
    and leaves the service as the first call left it. *)
Theorem service_update_idempotent this (id : string)
    (updateTodoDto : TodoService.UpdateTodoDto) (now : Date)
    (todo' : Todo.t) this' :
  TodoService.update id updateTodoDto now this = inr (todo', this') →
  TodoService.update id updateTodoDto now this' = inr (todo', this').
Proof.
  intros Hup.
  destruct (update_found _ _ _ _ _ _ Hup)
    as (index & todo & Hbefore & Hafter & _).
  unfold TodoService.update in *. rewrite Hbefore in Hup. rewrite Hafter.
  injection Hup as <- <-. simpl.
  by rewrite assign_twice, list_insert_insert_eq.
Qed.

End ServiceMore.

(** X5, witness of [service_update_findOne]. *)
Lemma service_update_findOne_witness :
  ∃ (index : nat) (todo : Todo.t),
    TodoService.findOne "2" Sample.service = inr (index, todo)
    ∧ TodoService.findOne "2"
        (Spec.after (H := Sample.epoch) Sample.service
           (Spec.CallUpdate "2" Sample.rename 9000))
      = inr (index, TodoService.assign (H := Sample.epoch) Sample.rename 9000
                      Sample.walkDog)
    ∧ Todo.updatedAt
        (TodoService.assign (H := Sample.epoch) Sample.rename 9000
           Sample.walkDog) = 9000.
Proof.
  apply (service_update_findOne (H := Sample.epoch) Sample.service "2"
           Sample.rename 9000).
  reflexivity.
Defined.

(** X6, witness of [service_update_idempotent]. *)
Lemma service_update_idempotent_witness :
  TodoService.update (H := Sample.epoch) "2" Sample.rename 9000
    (Spec.after (H := Sample.epoch) Sample.service
       (Spec.CallUpdate "2" Sample.rename 9000))
  = inr (TodoService.assign (H := Sample.epoch) Sample.rename 9000
           Sample.walkDog,
         Spec.after (H := Sample.epoch) Sample.service
           (Spec.CallUpdate "2" Sample.rename 9000)).
Proof.
  apply (service_update_idempotent (H := Sample.epoch) Sample.service "2"
           Sample.rename 9000).
  reflexivity.
Defined.

(** ** Statistics and seed data *)

Section Statistics.
Implicit Types (this : TodoService.t) (l : list Todo.t).

Lemma length_filter_le (p : Todo.t → bool) l :
  (length (List.filter p l) ≤ length l)%nat.
Proof.
  induction l as [|x l IH]; simpl; [lia|]. destruct (p x); simpl; lia.
Qed.

Lemma length_by_priority l :
  (length (List.filter (λ todo, bool_decide (Todo.priority todo = high)) l)
   + length (List.filter (λ todo, bool_decide (Todo.priority todo = medium)) l)
   + length (List.filter (λ todo, bool_decide (Todo.priority todo = low)) l)
   = length l)%nat.
Proof.
  induction l as [|x l IH]; simpl; [done|].
  destruct (Todo.priority x); simpl; lia.
Qed.

(** X7.  The statistics add up: the counts by priority sum to [total], as
    do [completed] and [active], none of them is negative, and [total] is
    the number of stored todos. *)
Theorem getStatistics_adds_up this :
  let stats := TodoService.getStatistics this in
  let by_ := TodoService.byPriority stats in
  TodoService.total stats = Z.of_nat (length (TodoService.findAll this))
  ∧ TodoService.byHigh by_ + TodoService.byMedium by_ + TodoService.byLow by_
    = TodoService.total stats
  ∧ TodoService.completed stats + TodoService.active stats
    = TodoService.total stats
  ∧ 0 ≤ TodoService.completed stats
  ∧ 0 ≤ TodoService.active stats
  ∧ 0 ≤ TodoService.byHigh by_
  ∧ 0 ≤ TodoService.byMedium by_
  ∧ 0 ≤ TodoService.byLow by_.
Proof.
  simpl. unfold TodoService.countWhere, TodoService.findAll.
  pose proof (length_by_priority (TodoService.todos this)).
  pose proof (length_filter_le Todo.completed (TodoService.todos this)).
  split_and!; lia.
Qed.

(** X8.  [initializeSeedData] fills an empty service with five todos and
    sets the counter past their identifiers, so that the identifiers stay
    distinct numerals below the counter; on a service that has todos it
    does nothing, so calling it again, whatever the clock, changes nothing;
    and it leaves a constructed or cleared service as it leaves any empty
    one. *)
Theorem initializeSeedData_seeds this (now clock1 clock2 clock4 clock5 : Z) :
  Spec.issuedIds this →
  let seeded :=
    TodoService.initializeSeedData now clock1 clock2 clock4 clock5 this in
  Spec.issuedIds seeded
  ∧ TodoService.todos seeded ≠ []
  ∧ (TodoService.todos this ≠ [] → seeded = this)
  ∧ (TodoService.todos this = [] →
     Todo.id <$> TodoService.todos seeded = ["1"; "2"; "3"; "4"; "5"]
     ∧ TodoService.idCounter seeded = 6)
  ∧ (∀ now' clock1' clock2' clock4' clock5',
       TodoService.initializeSeedData now' clock1' clock2' clock4' clock5'
         seeded = seeded).
Proof.
  intros Hwf seeded. subst seeded. unfold TodoService.initializeSeedData.
  destruct (TodoService.todos this) as [|todo l] eqn:Htodos; simpl.
  - split; [|by split_and!].
    unfold Spec.issuedIds. simpl. split; [done|]. split.
    + apply (bool_decide_unpack _). by vm_compute.
    + repeat apply Forall_cons_2;
        [exists 1|exists 2|exists 3|exists 4|exists 5|apply Forall_nil_2];
        (split; [simpl; lia | reflexivity]).
  - rewrite Htodos. simpl. split; [done|]. by split_and!.
Qed.

End Statistics.

Lemma issuedIds_initial : Spec.issuedIds TodoService.initial.
Proof.
  split_and!; [done|apply NoDup_nil_2|apply Forall_nil_2].
Qed.

(** X8, witness of [initializeSeedData_seeds]: seeding the service as it is
    constructed. *)
Lemma initializeSeedData_seeds_witness :
  Spec.issuedIds
    (TodoService.initializeSeedData 100 101 102 103 104 TodoService.initial).
Proof.
  apply (initializeSeedData_seeds TodoService.initial 100 101 102 103 104).
  exact issuedIds_initial.
Defined.

(** * Further properties of the client store *)

Lemma ids_replaceById (l : list Todo.t) (i : string) (e : Todo.t) :
  Todo.id e = i → Todo.id <$> replaceById i e l = Todo.id <$> l.
Proof.
  intros He. unfold replaceById.
  destruct (indexOfId i l) as [n|] eqn:Hn; [|done].
  apply indexOfId_Some in Hn as (t & Hn & Ht & _).
  rewrite list_fmap_insert. apply list_insert_id.
  rewrite list_lookup_fmap, Hn. simpl. congruence.
Qed.

Lemma replaceById_back (l : list Todo.t) (i : string) (v b : Todo.t) :
  Todo.id v = i →
  snd <$> list_find (λ t, Todo.id t = i) l = Some b →
  replaceById i b (replaceById i v l) = l.
Proof.
  intros Hv Hb. apply fmap_Some in Hb as ([n b'] & Hfind & ->). simpl.
  assert (Hn : indexOfId i l = Some n).
  { unfold indexOfId, Js.findIndex. by rewrite Hfind. }
  unfold replaceById at 2. rewrite Hn.
  unfold replaceById. rewrite (indexOfId_insert_first l i n v) by done.
  rewrite list_insert_insert_eq. apply list_insert_id.
  by apply list_find_Some in Hfind as (? & _).
Qed.

(** X9.  A delete that fails is undone without trace: when the identifier
    had no pending record, the state after the failure is the state before
    the delete with the failure text in [error]. *)
Theorem deleteTodo_rollback_exact
    (state : TodoState) (todoId : string) (e : Js.Thrown) :
  optimisticOperations state !! todoId = None →
  dispatch (deleteTodo_settle todoId (Js.Threw e))
    (dispatch (deleteTodo_submit todoId) state)
  = set_error (Some (messageOf e "Failed to delete todo")) state.
Proof.
  intros Hnone. destruct state as [l ld er f so ops]. simpl in *.
  unfold deleteTodo_rejected, unmarkTodoAsDeleting, markTodoAsDeleting,
    set_error, set_optimisticOperations. simpl.
  by rewrite delete_assign_id.
Qed.

Section StoreMore.
Context `{DateParser}.

(** X10.  A create that fails is undone without trace: for a temporary
    identifier with no entry and no pending record, the state after the
    failure is the state before the create with the failure text in
    [error]. *)
Theorem createTodo_rollback_exact
    (state : TodoState) (todoData : CreateTodoRequest.t) (tempId : string)
    (now : Date) (e : Js.Thrown) :
  entry tempId state = None →
  optimisticOperations state !! tempId = None →
  dispatch (createTodo_settle todoData tempId (Js.Threw e))
    (dispatch (createTodo_submit todoData tempId now) state)
  = set_error (Some (messageOf e "Failed to create todo")) state.
Proof.
  intros Hfresh Hnone.
  apply entry_None_find in Hfresh. apply list_find_None in Hfresh.
  destruct state as [l ld er f so ops]. simpl in *.
  unfold createTodo_rejected, removeOptimisticTodo, addTodoOptimistic,
    set_error, set_optimisticOperations, set_todos. simpl.
  rewrite delete_assign_id by done. f_equal.
  rewrite List.filter_app. cbn [List.filter].
  rewrite bool_decide_eq_false_2 by (intros Hne; by apply Hne).
  rewrite app_nil_r. by apply filter_others_all.
Qed.

(** X11.  An update that succeeds: for an identifier of the mirror, with
    the server answering an entity of that identifier, the entry becomes
    the server's entity at the place of the old one, the pending record is
    cleared, [error] is untouched, and the rest of the state is as before
    the update. *)
Theorem updateTodo_confirmed
    (state : TodoState) (arg : UpdateTodoArg) (now : Date)
    (serverTodo : Todo.t) (i : string) :
  is_Some (entry i state) →
  Todo.id (originalTodo arg) = i →
  Todo.id serverTodo = i →
  let settled :=
    dispatch (updateTodo_settle arg (Js.Resolved serverTodo))
      (dispatch (updateTodo_submit arg now) state) in
  entry i settled = Some serverTodo
  ∧ optimisticOperations settled !! i = None
  ∧ Spec.ids settled = Spec.ids state
  ∧ error settled = error state
  ∧ Spec.agreeExceptOn i state settled.
Proof.
  intros Hi Hb HS settled.
  set (v := updateTodo_updatedTodo arg now).
  assert (Hv : Todo.id v = i) by done.
  assert (Htodos : todos settled
                   = replaceById i serverTodo (replaceById i v (todos state))).
  { change (todos settled)
      with (replaceById (Todo.id serverTodo) serverTodo
              (todos (updateTodoOptimistic v state))).
    by rewrite todos_updateTodoOptimistic, HS, Hv. }
  assert (Hops : optimisticOperations settled
                 = delete i (optimisticOperations
                               (updateTodoOptimistic v state))).
  { change (optimisticOperations settled)
      with (delete (Todo.id serverTodo)
              (optimisticOperations (updateTodoOptimistic v state))).
    by rewrite HS. }
  assert (Hvs : is_Some (entry i (updateTodoOptimistic v state))).
  { rewrite <- Hv in *. rewrite entry_updateTodoOptimistic; eauto. }
  split_and!.
  - subst settled. rewrite <- HS in *.
    by apply (entry_updateTodo_fulfilled (updateTodoOptimistic v state)).
  - rewrite Hops. apply lookup_delete_eq.
  - unfold Spec.ids. rewrite Htodos. by rewrite !ids_replaceById.
  - change (error settled) with (error (updateTodoOptimistic v state)).
    unfold updateTodoOptimistic.
    by destruct (indexOfId (Todo.id v) (todos state)).
  - unfold Spec.agreeExceptOn. rewrite Htodos, Hops.
    rewrite !filter_others_replaceById by done.
    split; [done|].
    destruct (updateTodoOptimistic_frame state v) as (_ & Hk & Hl & Hf & Hs).
    rewrite Hv in Hk.
    split_and!; [|exact Hl|exact Hf|exact Hs].
    intros k Hne. rewrite lookup_delete_ne by done. by apply Hk.
Qed.

(** X12.  The rollback of a failed update gives back the whole mirror: when
    the baseline passed to the update is the entry the mirror holds, the
    list of todos after the failure is the list before the update. *)
Theorem updateTodo_rollback_mirror
    (state : TodoState) (arg : UpdateTodoArg) (now : Date) (e : Js.Thrown) :
  entry (Todo.id (originalTodo arg)) state = Some (originalTodo arg) →
  todos
    (dispatch (updateTodo_settle arg (Js.Threw e))
       (dispatch (updateTodo_submit arg now) state))
  = todos state.
Proof.
  intros Hb.
  set (v := updateTodo_updatedTodo arg now).
  transitivity (todos (updateTodoOptimistic (originalTodo arg)
                         (updateTodoOptimistic v state))); [reflexivity|].
  rewrite !todos_updateTodoOptimistic.
  by apply replaceById_back.
Qed.

End StoreMore.

(** X13.  Toggling a todo that is the mirror's entry: at once the entry has
    the opposite [completed] flag and the submit time as [updatedAt], every
    other field as before, and the identifier, unless it is the key
    [__proto__], is recorded as [updating]; if the remote call fails the
    list of todos is the list before the toggle; if it succeeds with an
    entity of that identifier the entry is the server's entity and the
    pending record is cleared. *)
Theorem toggleTodoComplete_lifecycle
    (state : TodoState) (todo : Todo.t) (now : Date) (e : Js.Thrown)
    (serverTodo : Todo.t) :
  entry (Todo.id todo) state = Some todo →
  Todo.id serverTodo = Todo.id todo →
  let submitted := dispatch (toggleTodoComplete_submit todo now) state in
  let failed :=
    dispatch (toggleTodoComplete_settle todo (Js.Threw e)) submitted in
  let confirmed :=
    dispatch (toggleTodoComplete_settle todo (Js.Resolved serverTodo))
      submitted in
  (∃ v, entry (Todo.id todo) submitted = Some v
        ∧ Todo.completed v = negb (Todo.completed todo)
        ∧ Todo.updatedAt v = now
        ∧ Todo.title v = Todo.title todo
        ∧ Todo.description v = Todo.description todo
        ∧ Todo.priority v = Todo.priority todo
        ∧ Todo.dueDate v = Todo.dueDate todo
        ∧ Todo.createdAt v = Todo.createdAt todo)
  ∧ (Todo.id todo ≠ "__proto__" →
     optimisticOperations submitted !! Todo.id todo = Some updating)
  ∧ todos failed = todos state
  ∧ entry (Todo.id todo) confirmed = Some serverTodo
  ∧ optimisticOperations confirmed !! Todo.id todo = None.
Proof.
  intros Hb HS submitted failed confirmed.
  set (v := toggleTodoComplete_updatedTodo todo now).
  assert (Hsome : is_Some (entry (Todo.id todo) state)) by (rewrite Hb; eauto).
  assert (Hsub : entry (Todo.id todo) submitted = Some v).
  { by apply (entry_updateTodoOptimistic state v). }
  split_and!.
  - by exists v.
  - intros Hkey. by apply (pending_updateTodoOptimistic state v).
  - change (todos failed)
      with (todos (updateTodoOptimistic todo (updateTodoOptimistic v state))).
    rewrite !todos_updateTodoOptimistic.
    by apply (replaceById_back (todos state) (Todo.id todo) v todo).
  - rewrite <- HS.
    apply (entry_updateTodo_fulfilled (updateTodoOptimistic v state)).
    rewrite HS. change (updateTodoOptimistic v state) with submitted.
    rewrite Hsub. eauto.
  - rewrite <- HS. apply lookup_delete_eq.
Qed.

Section Prediction.
Context `{DateParser}.


End Prediction.

(** ** Identifiers stay distinct *)

Lemma NoDup_ids_filter (p : Todo.t → bool) (l : list Todo.t) :
  NoDup (Todo.id <$> l) → NoDup (Todo.id <$> List.filter p l).
Proof.
  induction l as [|x l IH]; simpl; [done|].
  rewrite NoDup_cons. intros [Hx Hl]. destruct (p x); [|by apply IH].
  rewrite fmap_cons. apply NoDup_cons. split; [|by apply IH].
  intros (y & Hy & Hin%list_elem_of_In)%list_elem_of_fmap.
  apply List.filter_In in Hin as [Hin%list_elem_of_In _].
  apply Hx. apply list_elem_of_fmap. by exists y.
Qed.

Lemma elem_of_insert_inv (l : list string) (n : nat) (x y : string) :
  y ∈ <[n := x]> l → y = x ∨ y ∈ l.
Proof.
  revert n. induction l as [|z l IH]; intros [|n]; simpl;
    rewrite ?elem_of_cons; intros Hy; try tauto.
  destruct Hy as [->|Hy]; [tauto|]. destruct (IH n Hy); tauto.
Qed.

Lemma NoDup_insert_fresh (l : list string) (n : nat) (x : string) :
  NoDup l → x ∉ l → NoDup (<[n := x]> l).
Proof.
  revert n. induction l as [|y l IH]; intros n; [done|].
  rewrite NoDup_cons, not_elem_of_cons. intros [Hy Hl] [Hxy Hx].
  destruct n as [|n]; simpl; apply NoDup_cons.
  - done.
  - split; [|by apply IH].
    intros [->|Hin]%elem_of_insert_inv; [done|]. by apply Hy.
Qed.

(** X15.  The reducer keeps the identifiers of the mirror distinct, provided
    the actions that bring todos in do not bring a duplicate: an optimistic
    add has an identifier not in the mirror, a fetched list has distinct
    identifiers, and a confirmed create has the temporary identifier or one
    not in the mirror.  Every other action keeps them distinct as it is. *)
Theorem reducer_keeps_ids_distinct (state : TodoState) (action : Action) :
  NoDup (Spec.ids state) →
  Spec.bringsNoDuplicate state action →
  NoDup (Spec.ids (reducer state action)).
Proof.
  unfold Spec.ids. intros Hnodup Hsafe.
  destruct action; simpl in *; try done.
  - rewrite fmap_app. apply NoDup_app. split_and!; [done| |apply NoDup_singleton].
    by intros i Hi ->%list_elem_of_singleton.
  - rewrite todos_updateTodoOptimistic. by rewrite ids_replaceById.
  - by apply NoDup_ids_filter.
  - destruct Hsafe as [Hsame|Hfresh]; [by rewrite ids_replaceById|].
    unfold replaceById.
    destruct (indexOfId tempId (todos state)) as [n|]; [|done].
    rewrite list_fmap_insert. by apply NoDup_insert_fresh.
  - by rewrite ids_replaceById.
  - by apply NoDup_ids_filter.
  - by rewrite ids_replaceById.
Qed.

(** X15, witness of [reducer_keeps_ids_distinct]: the server confirms a
    create with an identifier the mirror does not have. *)
Lemma reducer_keeps_ids_distinct_witness :
  NoDup
    (Spec.ids
       (reducer
          (addTodoOptimistic
             (createTodo_optimisticTodo (H := Sample.epoch) Sample.milkRequest
                "temp-1" 2000)
             Sample.oneTodo)
          (CreateTodoFulfilled Sample.milkRequest "temp-1" Sample.created42))).
Proof.
  apply reducer_keeps_ids_distinct.
  - apply (bool_decide_unpack _). by vm_compute.
  - right. apply (bool_decide_unpack _). by vm_compute.
Defined.

(** ** Fetching the list *)

(** X16.  The life cycle of [fetchTodos]: while the call is pending
    [loading] is set and [error] is cleared; when it succeeds the mirror is
    the fetched list, whatever it held, and the pending records stay as
    they were; when it fails the mirror is untouched and [error] holds a
    text that is not empty: the message of the error thrown, or what is
    kept of another thrown value, when that is not empty, and else the
    text [Failed to fetch todos].  [loading] is off either way. *)
Theorem fetchTodos_lifecycle
    (state : TodoState) (payload : list Todo.t) (e : Js.Thrown)
    (serialized : option string) :
  let pending := dispatch fetchTodos_submit state in
  let fetched :=
    dispatch (fetchTodos_settle (Js.Resolved payload) serialized) pending in
  let failed :=
    dispatch (fetchTodos_settle (Js.Threw e) serialized) pending in
  (loading pending = true ∧ error pending = None
   ∧ todos pending = todos state)
  ∧ (todos fetched = payload ∧ loading fetched = false
     ∧ error fetched = None
     ∧ optimisticOperations fetched = optimisticOperations state)
  ∧ (todos failed = todos state ∧ loading failed = false
     ∧ optimisticOperations failed = optimisticOperations state
     ∧ (∃ text, error failed = Some text ∧ Js.truthy text = true
                ∧ (∀ m, e = Js.ErrorInstance m → Js.truthy m = true →
                        text = m))
     ∧ (∀ m, e = Js.ErrorInstance m →
          error failed
          = Some (if Js.truthy m then m else "Failed to fetch todos"))
     ∧ (e = Js.OtherValue →
        error failed
        = Some match serialized with
               | Some m => if Js.truthy m then m else "Failed to fetch todos"
               | None => "Failed to fetch todos"
               end)).
Proof.
  simpl. split_and!; try done.
  - by destruct e as [m|].
  - by destruct e as [m|].
  - by destruct e as [m|].
  - destruct e as [m|]; simpl.
    + destruct (Js.truthy m) eqn:Hm; eexists; split_and!; try done.
      * by intros ? [= <-].
      * intros ? [= <-]. by rewrite Hm.
    + destruct serialized as [m|]; simpl.
      * destruct (Js.truthy m) eqn:Hm; eexists; split_and!; try done.
      * eexists; split_and!; try done.
  - intros m ->. simpl. by destruct (Js.truthy m).
  - intros ->. simpl. destruct serialized as [m|]; simpl; [|done].
    by destruct (Js.truthy m).
Qed.

(** The texts of a failed fetch on samples: an error with a message, one
    with an empty message, and a thrown value of which no message is
    kept. *)
Example fetchTodos_failure_texts :
  error (dispatch (fetchTodos_settle (Sample.failed "offline") None)
           Sample.oneTodo) = Some "offline"
  ∧ error (dispatch (fetchTodos_settle (Sample.failed EmptyString) None)
             Sample.oneTodo) = Some "Failed to fetch todos"
  ∧ error (dispatch (fetchTodos_settle (Js.Threw Js.OtherValue) None)
             Sample.oneTodo) = Some "Failed to fetch todos".
Proof. by split_and!. Qed.

Section FetchRace.
Context `{DateParser}.

(** X17.  A list fetched while a create is in flight drops the optimistic
    todo, and the create's confirmation then finds nothing to replace: when
    the fetched list has no todo with the temporary identifier, the record
    of the temporary identifier, unless that is the key [__proto__], is
    still [creating] after the fetch, and the mirror after the create
    succeeded is the fetched list, without the created todo unless the
    fetched list had it. *)
Theorem createTodo_lost_by_fetch
    (state : TodoState) (todoData : CreateTodoRequest.t) (tempId : string)
    (now : Date) (payload : list Todo.t) (newTodo : Todo.t) :
  Forall (λ t, Todo.id t ≠ tempId) payload →
  let fetched :=
    dispatch (fetchTodos_settle (Js.Resolved payload) None)
      (dispatch fetchTodos_submit
         (dispatch (createTodo_submit todoData tempId now) state)) in
  let settled :=
    dispatch (createTodo_settle todoData tempId (Js.Resolved newTodo))
      fetched in
  (tempId ≠ "__proto__" →
   optimisticOperations fetched !! tempId = Some creating)
  ∧ todos settled = payload
  ∧ optimisticOperations settled !! tempId = None.
Proof.
  intros Hno fetched settled. split_and!.
  - intros Hkey. subst fetched. simpl. by apply lookup_assign_eq.
  - change (todos settled) with (replaceById tempId newTodo payload).
    apply replaceById_absent. by apply indexOfId_None.
  - apply lookup_delete_eq.
Qed.

End FetchRace.

(** X17, witness of [createTodo_lost_by_fetch]: the sample list is fetched
    while the sample request is in flight. *)
Lemma createTodo_lost_by_fetch_witness :
  let fetched :=
    dispatch (fetchTodos_settle (Js.Resolved Sample.threeTodos) None)
      (dispatch fetchTodos_submit
         (dispatch
            (createTodo_submit (H := Sample.epoch) Sample.milkRequest "temp-1"
               2000)
            Sample.oneTodo)) in
  let settled :=
    dispatch
      (createTodo_settle Sample.milkRequest "temp-1"
         (Js.Resolved Sample.created42))
      fetched in
  optimisticOperations fetched !! "temp-1" = Some creating
  ∧ todos settled = Sample.threeTodos
  ∧ optimisticOperations settled !! "temp-1" = None.
Proof.
  assert (Hno : Forall (λ t, Todo.id t ≠ "temp-1") Sample.threeTodos).
  { apply (bool_decide_unpack _). by vm_compute. }
  destruct (createTodo_lost_by_fetch (H := Sample.epoch) Sample.oneTodo
              Sample.milkRequest "temp-1" 2000 Sample.threeTodos
              Sample.created42 Hno)
    as (Hrecord & Htodos & Hcleared).
  split_and!; [|exact Htodos|exact Hcleared].
  apply Hrecord. discriminate.
Defined.

(** ** The HTTP calls under the thunks *)

Section Http.
Context `{DateParser}.

(** X18.  A thunk is fulfilled only by a response that is [ok] and whose
    body parses; every other outcome of the HTTP call takes the failure
    path.  A response that is not [ok] rolls back with the call's fixed
    text, whatever its body; a body that does not parse, or a [fetch] that
    throws, rolls back with the thrown value. *)
Theorem http_outcomes
    (state : TodoState) (arg : UpdateTodoArg) (todoData : CreateTodoRequest.t)
    (tempId todoId : string) (todo : Todo.t) :
  (∀ fetched serverTodo,
     TodoApi.updateTodo fetched = Js.Resolved serverTodo ↔
     ∃ r, fetched = Js.Resolved r ∧ TodoApi.ok r = true
          ∧ TodoApi.json r = Js.Resolved serverTodo)
  ∧ (∀ fetched newTodo,
       TodoApi.createTodo fetched = Js.Resolved newTodo ↔
       ∃ r, fetched = Js.Resolved r ∧ TodoApi.ok r = true
            ∧ TodoApi.json r = Js.Resolved newTodo)
  ∧ (∀ fetched,
       TodoApi.deleteTodo fetched = Js.Resolved () ↔
       ∃ r, fetched = Js.Resolved r ∧ TodoApi.ok r = true)
  ∧ (∀ r, TodoApi.ok r = false →
       error (dispatch (updateTodo_settle arg
                          (TodoApi.updateTodo (Js.Resolved r))) state)
         = Some "Failed to update todo"
       ∧ error (dispatch (toggleTodoComplete_settle todo
                            (TodoApi.updateTodo (Js.Resolved r))) state)
         = Some "Failed to update todo"
       ∧ error (dispatch (createTodo_settle todoData tempId
                            (TodoApi.createTodo (Js.Resolved r))) state)
         = Some "Failed to create todo")
  ∧ (∀ r, TodoApi.ok r = false →
       error (dispatch (deleteTodo_settle todoId
                          (TodoApi.deleteTodo (Js.Resolved r))) state)
         = Some "Failed to delete todo")
  ∧ (∀ e,
       updateTodo_settle arg
         (TodoApi.updateTodo (Js.Resolved (TodoApi.mkResponse true (Js.Threw e))))
       = updateTodo_settle arg (Js.Threw e)
       ∧ updateTodo_settle arg (TodoApi.updateTodo (Js.Threw e))
         = updateTodo_settle arg (Js.Threw e)
       ∧ createTodo_settle todoData tempId
           (TodoApi.createTodo
              (Js.Resolved (TodoApi.mkResponse true (Js.Threw e))))
         = createTodo_settle todoData tempId (Js.Threw e)
       ∧ createTodo_settle todoData tempId (TodoApi.createTodo (Js.Threw e))
         = createTodo_settle todoData tempId (Js.Threw e)
       ∧ deleteTodo_settle todoId (TodoApi.deleteTodo (Js.Threw e))
         = deleteTodo_settle todoId (Js.Threw e)).
Proof.
  split_and!.
  - intros [[[] j]|e] serverTodo; simpl; split;
      try (intros (r & Hr & Hok & Hj); simplify_eq/=; done); try done.
    intros ->. by eexists (TodoApi.mkResponse true _).
  - intros [[[] j]|e] newTodo; simpl; split;
      try (intros (r & Hr & Hok & Hj); simplify_eq/=; done); try done.
    intros ->. by eexists (TodoApi.mkResponse true _).
  - intros [[[] j]|e]; simpl; split;
      try (intros (r & Hr & Hok); simplify_eq/=; done); try done.
    intros _. by eexists (TodoApi.mkResponse true j).
  - intros [ok j] Hok. simpl in Hok. subst ok. by split_and!.
  - intros [ok j] Hok. simpl in Hok. by subst ok.
  - intros e. by split_and!.
Qed.

End Http.

(** ** Saving an edit *)

Section SaveEdit.
Context `{DateParser} (trim : string → string).

(** X19.  [handleSaveEdit] submits nothing but the text "Title is required"
    when the title is missing or trims to the empty string.  Otherwise it
    submits an update of the item's todo whose optimistic entity has the
    form's title, and a description and a due date that are the form's when
    the form's are not empty and the todo's own otherwise: emptying the
    description or the due date in the form does not clear them. *)
Theorem handleSaveEdit_submits
    (todo : Todo.t) (editData : UpdateTodoRequest.t) (now : Date) :
  match View.handleSaveEdit trim todo editData with
  | View.DispatchAction action =>
      action = SetError (Some "Title is required")
      ∧ ∀ title, Js.read (UpdateTodoRequest.title editData) = Some title →
                 Js.truthy (trim title) = false
  | View.DispatchUpdateTodo arg =>
      let v := updateTodo_updatedTodo arg now in
      originalTodo arg = todo
      ∧ id arg = Todo.id todo
      ∧ (∃ title, Js.read (UpdateTodoRequest.title editData) = Some title
                  ∧ Js.truthy (trim title) = true
                  ∧ Todo.title v = title)
      ∧ Todo.description v
        = match Js.read (UpdateTodoRequest.description editData) with
          | Some d => if Js.truthy d then Some d else Todo.description todo
          | None => Todo.description todo
          end
      ∧ Todo.dueDate v
        = match Js.read (UpdateTodoRequest.dueDate editData) with
          | Some d => if Js.truthy d then Some (parseDate d)
                      else Todo.dueDate todo
          | None => Todo.dueDate todo
          end
  end.
Proof.
  unfold View.handleSaveEdit.
  destruct (Js.read (UpdateTodoRequest.title editData)) as [title|] eqn:Ht;
    simpl.
  - destruct (Js.truthy (trim title)) eqn:Htrim; simpl.
    + split_and!; try done.
      * exists title. by rewrite Ht.
      * unfold View.orUndefined.
        destruct (Js.read (UpdateTodoRequest.description editData)) as [d|];
          [destruct (Js.truthy d)|]; done.
      * unfold View.orUndefined.
        destruct (Js.read (UpdateTodoRequest.dueDate editData)) as [d|];
          [destruct (Js.truthy d) eqn:Hd; simpl; by rewrite ?Hd|done].
    + split; [done|]. by intros ? [= <-].
  - by split.
Qed.

End SaveEdit.

(** * Further properties of the view projection *)

Section SortingMore.
Context {A : Type} (compareFn : A → A → Z) (ok : A → Prop).
Hypothesis compare_total :
  ∀ x y, compareFn x y ≤ 0 ∨ compareFn y x ≤ 0.
Hypothesis compare_trans :
  ∀ x y z, ok x → ok y → ok z →
    compareFn x y ≤ 0 → compareFn y z ≤ 0 → compareFn x z ≤ 0.

(** Whatever the comparator makes of the elements, each element of a
    sorted array is not after its successor, and such an array is sorted
    to itself. *)
Lemma insert_by_adjacent x l :
  Sorted (Spec.notAfter compareFn) l →
  Sorted (Spec.notAfter compareFn) (Js.insert_by compareFn x l).
Proof.
  induction 1 as [|y l Hl IH Hy]; simpl.
  - by repeat constructor.
  - case_bool_decide as Hxy.
    + constructor; [by constructor|by constructor].
    + constructor; [exact IH|].
      assert (Hyx : Spec.notAfter compareFn y x).
      { unfold Spec.notAfter. destruct (compare_total x y); [done|lia]. }
      destruct Hy as [|z l Hyz]; simpl; [by constructor|].
      case_bool_decide; by constructor.
Qed.

Lemma sort_by_adjacent l :
  Sorted (Spec.notAfter compareFn) (Js.sort_by compareFn l).
Proof.
  induction l as [|x l IH]; simpl; [constructor|].
  fold (Js.sort_by compareFn l). by apply insert_by_adjacent.
Qed.

Lemma sort_by_of_adjacent l :
  Sorted (Spec.notAfter compareFn) l → Js.sort_by compareFn l = l.
Proof.
  induction 1 as [|x l _ IH Hx]; simpl; [done|].
  fold (Js.sort_by compareFn l). rewrite IH.
  destruct Hx as [|y l Hxy]; simpl; [done|].
  by rewrite bool_decide_eq_true_2.
Qed.

Lemma sort_by_twice l :
  Js.sort_by compareFn (Js.sort_by compareFn l) = Js.sort_by compareFn l.
Proof. apply sort_by_of_adjacent, sort_by_adjacent. Qed.

Lemma sort_by_le_sorted l :
  Forall ok l →
  StronglySorted (Spec.notAfter compareFn) (Js.sort_by compareFn l).
Proof.
  apply (sort_by_sorted compareFn (Spec.notAfter compareFn) ok).
  - by intros x y _ _ Hxy.
  - intros x y _ _ Hxy. unfold Spec.notAfter.
    destruct (compare_total x y); [done|lia].
  - exact compare_trans.
Qed.

Lemma insert_by_least x l :
  Forall (Spec.notAfter compareFn x) l → Js.insert_by compareFn x l = x :: l.
Proof.
  destruct 1 as [|y l Hy _]; simpl; [done|].
  by rewrite bool_decide_eq_true_2.
Qed.

Lemma filter_insert_by_out (P : A → bool) x l :
  P x = false →
  List.filter P (Js.insert_by compareFn x l) = List.filter P l.
Proof.
  intros Hx. induction l as [|y l IH]; simpl; [by rewrite Hx|].
  case_bool_decide; simpl; [by rewrite Hx|]. by rewrite IH.
Qed.

Lemma filter_insert_by_in (P : A → bool) x l :
  P x = true → ok x → Forall ok l →
  StronglySorted (Spec.notAfter compareFn) l →
  List.filter P (Js.insert_by compareFn x l)
  = Js.insert_by compareFn x (List.filter P l).
Proof.
  intros Hx Hokx Hok Hsorted. revert Hok.
  induction Hsorted as [|y l Hl IH Hy]; simpl; [by rewrite Hx|].
  intros [Hoky Hokl]%Forall_cons.
  case_bool_decide as Hxy; simpl.
  - rewrite Hx. destruct (P y) eqn:HPy; simpl.
    + by rewrite bool_decide_eq_true_2.
    + symmetry. apply insert_by_least.
      apply Forall_forall. intros z Hz%list_elem_of_In.
      apply List.filter_In in Hz as [Hz%list_elem_of_In _].
      rewrite Forall_forall in Hy. rewrite Forall_forall in Hokl.
      apply (compare_trans x y z); auto. by apply Hy.
  - destruct (P y) eqn:HPy; simpl.
    + by rewrite bool_decide_eq_false_2, IH.
    + by apply IH.
Qed.

Lemma filter_sort_by (P : A → bool) l :
  Forall ok l →
  List.filter P (Js.sort_by compareFn l)
  = Js.sort_by compareFn (List.filter P l).
Proof.
  induction 1 as [|x l Hx Hl IH]; simpl; [done|].
  fold (Js.sort_by compareFn l).
  destruct (P x) eqn:HPx; simpl.
  - fold (Js.sort_by compareFn (List.filter P l)). rewrite <- IH.
    apply filter_insert_by_in; [done|done| |by apply sort_by_le_sorted].
    by rewrite sort_by_Permutation.
  - by rewrite filter_insert_by_out.
Qed.

End SortingMore.

(** Of two todos, one is not after the other for the comparator, whatever
    their dates. *)
Lemma comparator_total sort a b :
  Js.sortCompare (Utils.comparator sort) a b ≤ 0
  ∨ Js.sortCompare (Utils.comparator sort) b a ≤ 0.
Proof.
  unfold Js.sortCompare, Utils.comparator, Utils.compare_created,
    Utils.compare_priority, Utils.compare_dueDate.
  destruct sort, (Todo.createdAt a) as [?|], (Todo.createdAt b) as [?|],
    (Todo.dueDate a) as [[?|]|], (Todo.dueDate b) as [[?|]|]; simpl; lia.
Qed.

Lemma comparator_trans sort a b c :
  Spec.sortable sort a → Spec.sortable sort b → Spec.sortable sort c →
  Js.sortCompare (Utils.comparator sort) a b ≤ 0 →
  Js.sortCompare (Utils.comparator sort) b c ≤ 0 →
  Js.sortCompare (Utils.comparator sort) a c ≤ 0.
Proof.
  unfold Js.sortCompare, Utils.comparator, Utils.compare_created,
    Utils.compare_priority, Utils.compare_dueDate, Spec.sortable.
  destruct sort.
  - destruct (Todo.createdAt a) as [?|], (Todo.createdAt b) as [?|],
      (Todo.createdAt c) as [?|]; simpl; intros; try done; lia.
  - simpl. lia.
  - destruct (Todo.dueDate a) as [[?|]|], (Todo.dueDate b) as [[?|]|],
      (Todo.dueDate c) as [[?|]|]; simpl; intros; try done; lia.
Qed.

Lemma filter_passes_twice filter (l : list Todo.t) :
  List.filter (Spec.passes filter) (List.filter (Spec.passes filter) l)
  = List.filter (Spec.passes filter) l.
Proof.
  induction l as [|x l IH]; simpl; [done|].
  destruct (Spec.passes filter x) eqn:Hx; simpl; [|done].
  by rewrite Hx, IH.
Qed.

Lemma filter_all_pass {A} (p : A → bool) (l : list A) :
  Forall (λ x, p x = true) l → List.filter p l = l.
Proof.
  induction 1 as [|x l Hx _ IH]; simpl; [done|]. by rewrite Hx, IH.
Qed.

Lemma filter_passes_all (l : list Todo.t) :
  List.filter (Spec.passes FilterAll) l = l.
Proof. induction l as [|x l IH]; simpl; [done|]. by rewrite IH. Qed.

(** X20.  Filtering and sorting commute when the dates the selected order
    reads are valid dates: the projection for a filter is then the
    projection of the whole mirror in the same order with the todos that do
    not pass the filter left out. *)
Theorem projection_filter_after_sort
    (l : list Todo.t) (filter : FilterType) (sort : SortType) :
  Forall (Spec.sortable sort) l →
  View.projection l filter sort
  = List.filter (Spec.passes filter) (View.projection l FilterAll sort).
Proof.
  intros Hok. rewrite !projection_eq, filter_passes_all.
  symmetry.
  by apply (filter_sort_by _ (Spec.sortable sort)
              (comparator_total sort) (comparator_trans sort)).
Qed.

(** X20, witness of [projection_filter_after_sort]: the active todos of
    the sample list by creation time. *)
Lemma projection_filter_after_sort_witness :
  View.projection Sample.threeTodos FilterActive SortCreated
  = List.filter (Spec.passes FilterActive)
      (View.projection Sample.threeTodos FilterAll SortCreated).
Proof.
  apply (projection_filter_after_sort Sample.threeTodos FilterActive
           SortCreated).
  repeat apply Forall_cons_2; try apply Forall_nil_2; discriminate.
Defined.

(** With the Invalid Date in the mirror the two differ: a completed todo
    whose creation time is invalid stands between two active todos, and
    the active projection has them by creation time while the whole
    projection leaves them as they were. *)
Example projection_filter_invalid_date :
  let l :=
    [Sample.payRent;
     {| Todo.id := "4"; Todo.title := "Call back";
        Todo.description := None; Todo.completed := true;
        Todo.priority := low; Todo.dueDate := None;
        Todo.createdAt := InvalidDate; Todo.updatedAt := InvalidDate |};
     Sample.buyMilk] in
  View.projection l FilterActive SortCreated
  = [Sample.buyMilk; Sample.payRent]
  ∧ List.filter (Spec.passes FilterActive)
      (View.projection l FilterAll SortCreated)
    = [Sample.payRent; Sample.buyMilk].
Proof. intros l. rewrite !projection_eq. by vm_compute. Qed.

(** X21.  When the dates the selected order reads are valid dates, so that
    the comparator is consistent and the outcome of the sort is the same
    for every engine, projecting a projection again with the same filter
    and order gives the same sequence. *)
Theorem projection_idempotent
    (l : list Todo.t) (filter : FilterType) (sort : SortType) :
  Forall (Spec.sortable sort) l →
  View.projection (View.projection l filter sort) filter sort
  = View.projection l filter sort.
Proof.
  intros _. rewrite !projection_eq.
  assert (Hpass : List.filter (Spec.passes filter)
                    (Js.sort_by (Js.sortCompare (Utils.comparator sort))
                       (List.filter (Spec.passes filter) l))
                  = Js.sort_by (Js.sortCompare (Utils.comparator sort))
                      (List.filter (Spec.passes filter) l)).
  { apply filter_all_pass. rewrite sort_by_Permutation.
    apply Forall_forall. intros todo Hin%list_elem_of_In.
    by apply List.filter_In in Hin as [_ Hp]. }
  rewrite Hpass.
  apply (sort_by_twice _ (comparator_total sort)).
Qed.

(** X22.  The projection is stable: todos of one priority, in the order by
    priority, stand in the projection in the order they have in the
    mirror; so do, when the due dates are valid dates, todos of one due
    date or without one in the order by due date, and, when the creation
    times are valid dates, todos of one creation time in the order by
    creation. *)
Theorem projection_stable (l : list Todo.t) (filter : FilterType) :
  (∀ p,
     List.filter (λ todo, bool_decide (Todo.priority todo = p))
       (View.projection l filter SortPriority)
     = List.filter (λ todo, bool_decide (Todo.priority todo = p))
         (List.filter (Spec.passes filter) l))
  ∧ (Forall (Spec.sortable SortDueDate) l →
     ∀ d,
       List.filter (λ todo, bool_decide (Todo.dueDate todo = d))
         (View.projection l filter SortDueDate)
       = List.filter (λ todo, bool_decide (Todo.dueDate todo = d))
           (List.filter (Spec.passes filter) l))
  ∧ (Forall (Spec.sortable SortCreated) l →
     ∀ c,
       List.filter (λ todo, bool_decide (Todo.createdAt todo = c))
         (View.projection l filter SortCreated)
       = List.filter (λ todo, bool_decide (Todo.createdAt todo = c))
           (List.filter (Spec.passes filter) l)).
Proof.
  rewrite !projection_eq. split_and!; [|intros _..].
  - intros p. apply sort_by_stable.
    intros x y Hx%bool_decide_eq_true Hy%bool_decide_eq_true.
    unfold Js.sortCompare. simpl.
    unfold Utils.compare_priority. rewrite Hx, Hy. simpl. lia.
  - intros d. apply sort_by_stable.
    intros x y Hx%bool_decide_eq_true Hy%bool_decide_eq_true.
    unfold Js.sortCompare. simpl.
    unfold Utils.compare_dueDate. rewrite Hx, Hy.
    destruct d as [[?|]|]; simpl; lia.
  - intros c. apply sort_by_stable.
    intros x y Hx%bool_decide_eq_true Hy%bool_decide_eq_true.
    unfold Js.sortCompare. simpl.
    unfold Utils.compare_created. rewrite Hx, Hy.
    destruct c as [?|]; simpl; lia.
Qed.

(** X21, witness of [projection_idempotent]: the sample list by due
    date. *)
Lemma projection_idempotent_witness :
  View.projection (View.projection Sample.threeTodos FilterAll SortDueDate)
    FilterAll SortDueDate
  = View.projection Sample.threeTodos FilterAll SortDueDate.
Proof.
  apply (projection_idempotent Sample.threeTodos FilterAll SortDueDate).
  repeat apply Forall_cons_2; try apply Forall_nil_2; discriminate.
Defined.

(** X22, witness of [projection_stable]: the todos of the sample list due
    at 5000, in the order by due date. *)
Lemma projection_stable_witness :
  List.filter (λ todo, bool_decide (Todo.dueDate todo = Some (Time 5000)))
    (View.projection Sample.threeTodos FilterAll SortDueDate)
  = List.filter (λ todo, bool_decide (Todo.dueDate todo = Some (Time 5000)))
      (List.filter (Spec.passes FilterAll) Sample.threeTodos).
Proof.
  destruct (projection_stable Sample.threeTodos FilterAll)
    as (_ & Hdue & _).
  apply Hdue.
  repeat apply Forall_cons_2; try apply Forall_nil_2; discriminate.
Defined.


(** * The mirror and the backend together *)

Section InStep.
Context `{DateParser}.


End InStep.


(** X9, witness of [deleteTodo_rollback_exact]. *)
Lemma deleteTodo_rollback_exact_witness :
  dispatch (deleteTodo_settle "1" (Sample.failed "Failed to delete todo"))
    (dispatch (deleteTodo_submit "1") Sample.oneTodo)
  = set_error (Some "Failed to delete todo") Sample.oneTodo.
Proof.
  apply (deleteTodo_rollback_exact Sample.oneTodo "1"
           (Js.ErrorInstance "Failed to delete todo")).
  reflexivity.
Defined.

(** X10, witness of [createTodo_rollback_exact]. *)
Lemma createTodo_rollback_exact_witness :
  dispatch
    (createTodo_settle Sample.milkRequest "temp-1" (Sample.failed "offline"))
    (dispatch
       (createTodo_submit (H := Sample.epoch) Sample.milkRequest "temp-1" 2000)
       Sample.oneTodo)
  = set_error (Some "offline") Sample.oneTodo.
Proof.
  apply (createTodo_rollback_exact (H := Sample.epoch) Sample.oneTodo
           Sample.milkRequest "temp-1" 2000 (Js.ErrorInstance "offline"));
    reflexivity.
Defined.

(** X11, witness of [updateTodo_confirmed]: the priority of the sample todo
    is raised and the server confirms. *)
Lemma updateTodo_confirmed_witness :
  let settled :=
    dispatch (updateTodo_settle Sample.raiseArg (Js.Resolved Sample.raised))
      (dispatch (updateTodo_submit (H := Sample.epoch) Sample.raiseArg 2200)
         Sample.oneTodo) in
  entry "1" settled = Some Sample.raised
  ∧ optimisticOperations settled !! "1" = None
  ∧ Spec.ids settled = Spec.ids Sample.oneTodo
  ∧ error settled = error Sample.oneTodo
  ∧ Spec.agreeExceptOn "1" Sample.oneTodo settled.
Proof.
  apply (updateTodo_confirmed (H := Sample.epoch) Sample.oneTodo
           Sample.raiseArg 2200 Sample.raised "1").
  - vm_compute. eauto.
  - reflexivity.
  - reflexivity.
Defined.

(** X12, witness of [updateTodo_rollback_mirror]. *)
Lemma updateTodo_rollback_mirror_witness :
  todos
    (dispatch (updateTodo_settle Sample.renameArg (Sample.failed "offline"))
       (dispatch (updateTodo_submit (H := Sample.epoch) Sample.renameArg 2000)
          Sample.oneTodo))
  = todos Sample.oneTodo.
Proof.
  apply (updateTodo_rollback_mirror (H := Sample.epoch) Sample.oneTodo
           Sample.renameArg 2000 (Js.ErrorInstance "offline")).
  reflexivity.
Defined.

(** X13, witness of [toggleTodoComplete_lifecycle]. *)
Lemma toggleTodoComplete_lifecycle_witness :
  todos
    (dispatch
       (toggleTodoComplete_settle Sample.buyMilk (Sample.failed "offline"))
       (dispatch (toggleTodoComplete_submit Sample.buyMilk 2000)
          Sample.oneTodo))
  = todos Sample.oneTodo.
Proof.
  assert (Hb : entry (Todo.id Sample.buyMilk) Sample.oneTodo
               = Some Sample.buyMilk) by reflexivity.
  assert (HS : Todo.id Sample.raised = Todo.id Sample.buyMilk) by reflexivity.
  destruct (toggleTodoComplete_lifecycle Sample.oneTodo Sample.buyMilk 2000
              (Js.ErrorInstance "offline") Sample.raised Hb HS)
    as (_ & _ & Hfailed & _).
  exact Hfailed.
Defined.
